(** * deploy-utils: the confirmation-tracking contract wrapper

    A shallow embedding of [getAdvancedContract] from
    [packages/contracts-bedrock/src/deploy-utils.ts] and the properties of
    its confirmation / resubmission loop.

    The wrapper is asynchronous code talking to a node.  It is modelled as a
    pure function over the answers the node gives: the outcomes of the
    successive underlying submissions and the answers of the successive
    [getTransactionReceipt] queries.  Everything the wrapper does to the
    outside world is recorded, in order, in a trace of events. *)

From Stdlib Require Import ZArith List String Bool Lia.
Import ListNotations.

Set Warnings "-register-all".

Local Open Scope string_scope.
Local Open Scope list_scope.
Local Open Scope Z_scope.

(** ** JavaScript values, as far as the wrapper inspects them *)

Module JS.

(** Numbers are the integers the code handles (counters, gas prices,
    confirmation counts). *)
Inductive value : Type :=
| VUndefined
| VNull
| VBool (b : bool)
| VNum (n : Z)
| VStr (s : string)
| VFun (f : string)
| VObj (props : list (string * value)).

Inductive error : Type :=
| TypeError (msg : string)
| Rejected (reason : string).

(** The result of evaluating an expression or awaiting a promise that
    settles. *)
Inductive completion (A : Type) : Type :=
| Normal (a : A)
| Throw (e : error).

Arguments Normal {A} a.
Arguments Throw {A} e.

(** [typeof v]; note [typeof null === 'object']. *)
Definition typeof (v : value) : string :=
  match v with
  | VUndefined => "undefined"
  | VNull => "object"
  | VBool _ => "boolean"
  | VNum _ => "number"
  | VStr _ => "string"
  | VFun _ => "function"
  | VObj _ => "object"
  end.

Fixpoint lookup (p : string) (props : list (string * value)) : value :=
  match props with
  | [] => VUndefined
  | (k, v) :: rest => if String.eqb k p then v else lookup p rest
  end.

(** [v.p]: reading a property of [null] or [undefined] throws. *)
Definition get (v : value) (p : string) : completion value :=
  match v with
  | VUndefined =>
      Throw (TypeError "Cannot read properties of undefined")
  | VNull => Throw (TypeError "Cannot read properties of null")
  | VObj props => Normal (lookup p props)
  | _ => Normal VUndefined
  end.

End JS.

Import JS.

(** ** The data the wrapper reads *)

Record DeployConfig : Type := {
  gasPrice : option Z;
  numDeployConfirmations : Z
}.

Record Network : Type := { name : string }.

(** [opts.hre]; [deployConfig] is absent when the configuration was not
    loaded, and reading a field of it then throws. *)
Record HRE : Type := {
  deployConfig : option DeployConfig;
  network : Network
}.

Record TransactionReceipt : Type := { confirmations : Z }.

Record FunctionFragment : Type := {
  fname : string;
  constant : bool
}.

Definition Interface : Type := list FunctionFragment.

(** [iface.getFunction(fnName)], which throws when there is no such
    function. *)
Fixpoint getFunction (iface : Interface) (fnName : string)
  : completion FunctionFragment :=
  match iface with
  | [] => Throw (Rejected "no matching function")
  | frag :: rest =>
      if String.eqb (fname frag) fnName then Normal frag
      else getFunction rest fnName
  end.

(** ** What the wrapper does to the outside world *)

Inductive event : Type :=
| Submit (fnName : string) (args : list value) (gasPrice : option Z)
| Sleep (ms : Z)
| GetTransactionReceipt (hash : value)
| ConsoleLog (msg : string).

(** How a wrapped call ends.  [Pending] is a call that has not settled
    within the answers of the node known so far. *)
Inductive outcome : Type :=
| Returned (v : value)
| Thrown (e : error)
| Pending.

(** ** The confirmation tracker: the [while (true)] loop *)

Definition maxTimeout : Z := 120.

Definition warning : string :=
  "WARNING: Exceeded max timeout on transaction. Attempting to submit transaction again...".

(** What one pass of the loop decides, after the receipt has arrived. *)
Inductive iteration : Type :=
| Continue (timeout : Z)
| ReturnTx
| Resubmit
| Raise (e : error).

Definition loop_body (hre : HRE) (timeout : Z)
    (receipt : option TransactionReceipt) : iteration :=
  match receipt with
  | None =>
      let timeout := timeout + 1 in
      if (timeout >? maxTimeout) && String.eqb (name (network hre)) "kovan"
      then Resubmit
      else Continue timeout
  | Some r =>
      match deployConfig hre with
      | None => Raise (TypeError "Cannot read properties of undefined")
      | Some cfg =>
          if confirmations r >=? numDeployConfirmations cfg
          then ReturnTx
          else Continue timeout
      end
  end.

(** How the loop is left. *)
Inductive loop_exit : Type :=
| Confirmed
| Dropped
| Failed (e : error)
| Polling.

Definition answer : Type := completion (option TransactionReceipt).

(** The loop over the node's answers to the successive receipt queries.
    It gives how the loop is left, the events of the loop, and the answers
    not consumed.  When the answers run out the loop is still polling. *)
Fixpoint track (hre : HRE) (tx : value) (timeout : Z) (answers : list answer)
  : loop_exit * list event * list answer :=
  match answers with
  | [] => (Polling, [], [])
  | a :: rest =>
      match get tx "hash" with
      | Throw e => (Failed e, [Sleep 1000], answers)
      | Normal hash =>
          let evs := [Sleep 1000; GetTransactionReceipt hash] in
          match a with
          | Throw e => (Failed e, evs, rest)
          | Normal receipt =>
              match loop_body hre timeout receipt with
              | Continue timeout' =>
                  let '(x, evs', rest') := track hre tx timeout' rest in
                  (x, evs ++ evs', rest')
              | ReturnTx => (Confirmed, evs, rest)
              | Resubmit => (Dropped, evs ++ [ConsoleLog warning], rest)
              | Raise e => (Failed e, evs, rest)
              end
          end
      end
  end.

(** ** The wrapped method *)

(** [try { gasPrice = opts.hre.deployConfig.gasPrice } catch (err) {}] *)
Definition read_gasPrice (hre : HRE) : completion (option Z) :=
  match deployConfig hre with
  | None => Throw (TypeError "Cannot read properties of undefined")
  | Some cfg => Normal (gasPrice cfg)
  end.

Definition configured_gasPrice (hre : HRE) : option Z :=
  match read_gasPrice hre with
  | Normal g => g
  | Throw _ => None
  end.

Section Wrapper.

Variable hre : HRE.
Variable iface : Interface.
Variable fnName : string.
Variable args : list value.

(** The function installed as [contract[fnName]].  [submissions] are the
    outcomes of the successive calls of the underlying method, [answers]
    the node's answers to the successive receipt queries.  The recursive
    call is the resubmission [contract[fnName](...args)]. *)
Fixpoint advanced (submissions : list (completion value))
    (answers : list answer) : outcome * list event :=
  let gasPrice := configured_gasPrice hre in
  match getFunction iface fnName with
  | Throw e => (Thrown e, [])
  | Normal frag =>
      let gasPrice := if constant frag then Some 0 else gasPrice in
      let call := Submit fnName args gasPrice in
      match submissions with
      | [] => (Pending, [call])
      | Throw e :: _ => (Thrown e, [call])
      | Normal tx :: later =>
          if negb (String.eqb (typeof tx) "object")
          then (Returned tx, [call])
          else
            match get tx "wait" with
            | Throw e => (Thrown e, [call])
            | Normal wait =>
                if negb (String.eqb (typeof wait) "function")
                then (Returned tx, [call])
                else
                  match track hre tx 0 answers with
                  | (Confirmed, evs, _) => (Returned tx, call :: evs)
                  | (Dropped, evs, rest) =>
                      let '(o, evs') := advanced later rest in
                      (o, call :: evs ++ evs')
                  | (Failed e, evs, _) => (Thrown e, call :: evs)
                  | (Polling, evs, _) => (Pending, call :: evs)
                  end
            end
      end
  end.

End Wrapper.

(** ** The contract handle and its construction *)

Record Provider : Type := { endpoint : string }.

Record Signer : Type := {
  account : string;
  signer_provider : option Provider
}.

Inductive SignerOrProvider : Type :=
| ASigner (s : Signer)
| AProvider (p : Provider).

(** What a method property of a handle is bound to: the method the library
    built, or the intercepting function of [getAdvancedContract]. *)
Inductive method : Type :=
| Builtin
| Intercepting.

Record property : Type := {
  writable : bool;
  bound : method
}.

Record Contract : Type := {
  address : string;
  interface : Interface;
  signer : option Signer;
  provider : option Provider;
  functions : list string;
  members : list (string * property)
}.

(** The value of the global [Object.defineProperty]: the native one, or
    the override [(obj, propName, prop) => { prop.writable = true; return
    def(obj, propName, prop) }] closed over the saved [def]. *)
Inductive definer : Type :=
| NativeDefineProperty
| WritableDefineProperty (def : definer).

(** The property a call of [Object.defineProperty] installs. *)
Fixpoint define (d : definer) (prop : property) : property :=
  match d with
  | NativeDefineProperty => prop
  | WritableDefineProperty def =>
      define def {| writable := true; bound := bound prop |}
  end.

Record Globals : Type := { Object_defineProperty : definer }.

(** The library's [new Contract(address, interface, signerOrProvider)]: it
    keeps its arguments (a signer brings its own provider) and defines one
    read-only property per function through the global
    [Object.defineProperty] in force. *)
Definition new_Contract (g : Globals) (addr : string) (iface : Interface)
    (signerOrProvider : option SignerOrProvider) : Contract :=
  {| address := addr;
     interface := iface;
     signer :=
       match signerOrProvider with
       | Some (ASigner s) => Some s
       | _ => None
       end;
     provider :=
       match signerOrProvider with
       | Some (ASigner s) => signer_provider s
       | Some (AProvider p) => Some p
       | None => None
       end;
     functions := map fname iface;
     members :=
       map (fun frag =>
              (fname frag,
               define (Object_defineProperty g)
                 {| writable := false; bound := Builtin |}))
           iface |}.

(** [obj[key] = m] in strict mode: writing a read-only property throws. *)
Fixpoint assign (key : string) (m : method) (ms : list (string * property))
  : completion (list (string * property)) :=
  match ms with
  | [] => Normal [(key, {| writable := true; bound := m |})]
  | (k, p) :: rest =>
      if String.eqb k key then
        if writable p
        then Normal ((k, {| writable := true; bound := m |}) :: rest)
        else Throw (TypeError "Cannot assign to read only property")
      else
        match assign key m rest with
        | Normal rest' => Normal ((k, p) :: rest')
        | Throw e => Throw e
        end
  end.

Definition with_members (c : Contract) (ms : list (string * property))
  : Contract :=
  {| address := address c;
     interface := interface c;
     signer := signer c;
     provider := provider c;
     functions := functions c;
     members := ms |}.

(** [for (const fnName of Object.keys(contract.functions))
      contract[fnName] = async (...args) => ...] *)
Fixpoint install (keys : list string) (c : Contract) : completion Contract :=
  match keys with
  | [] => Normal c
  | fnName :: later =>
      match assign fnName Intercepting (members c) with
      | Throw e => Throw e
      | Normal ms => install later (with_members c ms)
      end
  end.

Record Opts : Type := {
  opts_hre : HRE;
  opts_contract : Contract
}.

(** [opts.contract.signer || opts.contract.provider] *)
Definition credential (c : Contract) : option SignerOrProvider :=
  match signer c with
  | Some s => Some (ASigner s)
  | None =>
      match provider c with
      | Some p => Some (AProvider p)
      | None => None
      end
  end.

Definition getAdvancedContract (opts : Opts) (g : Globals)
  : completion Contract * Globals :=
  let def := Object_defineProperty g in
  let g := {| Object_defineProperty := WritableDefineProperty def |} in
  let contract :=
    new_Contract g
      (address (opts_contract opts))
      (interface (opts_contract opts))
      (credential (opts_contract opts)) in
  let g := {| Object_defineProperty := def |} in
  (install (functions contract) contract, g).

(** The property [contract[fnName]], if there is one. *)
Definition member (fnName : string) (ms : list (string * property))
  : option (string * property) :=
  find (fun kp => String.eqb (fst kp) fnName) ms.

(** [contract[fnName]] is the intercepting function. *)
(** Calling [contract[fnName](...args)] on a handle. *)
Definition invoke (hre : HRE) (c : Contract) (fnName : string)
    (args : list value) (submissions : list (completion value))
    (answers : list answer) : outcome * list event :=
  match member fnName (members c) with
  | None => (Thrown (TypeError "contract[fnName] is not a function"), [])
  | Some (_, p) =>
      match bound p with
      | Intercepting => advanced hre (interface c) fnName args submissions answers
      | Builtin =>
          match submissions with
          | [] => (Pending, [Submit fnName args None])
          | Throw e :: _ => (Thrown e, [Submit fnName args None])
          | Normal v :: _ => (Returned v, [Submit fnName args None])
          end
      end
  end.

Definition intercepted (ms : list (string * property)) (fnName : string)
  : bool :=
  match member fnName ms with
  | Some (_, {| writable := _; bound := Intercepting |}) => true
  | _ => false
  end.

Definition all_writable (ms : list (string * property)) : bool :=
  forallb (fun kp => writable (snd kp)) ms.

(** ** Reading traces *)

(** [n] rounds of the loop: a one-second sleep, then a receipt query. *)
Fixpoint polls (hash : value) (n : nat) : list event :=
  match n with
  | O => []
  | S k => Sleep 1000 :: GetTransactionReceipt hash :: polls hash k
  end.

Definition is_sleep (e : event) : bool :=
  match e with Sleep ms => ms =? 1000 | _ => false end.

Definition is_query (e : event) : bool :=
  match e with GetTransactionReceipt _ => true | _ => false end.

Definition is_submit (e : event) : bool :=
  match e with Submit _ _ _ => true | _ => false end.

Definition is_log (e : event) : bool :=
  match e with ConsoleLog _ => true | _ => false end.

Definition sleeps (evs : list event) : nat := List.length (filter is_sleep evs).
Definition queries (evs : list event) : nat := List.length (filter is_query evs).
Definition submits (evs : list event) : nat := List.length (filter is_submit evs).
Definition logs (evs : list event) : nat := List.length (filter is_log evs).

(** The number of answers saying that there is no receipt yet. *)
Fixpoint absents (l : list answer) : Z :=
  match l with
  | [] => 0
  | Normal None :: rest => 1 + absents rest
  | _ :: rest => absents rest
  end.

(** An answer that leaves the transaction unconfirmed: no receipt, or a
    receipt with too few confirmations. *)
Definition unconfirmed (hre : HRE) (a : answer) : bool :=
  match a with
  | Normal None => true
  | Normal (Some r) =>
      match deployConfig hre with
      | Some cfg => confirmations r <? numDeployConfirmations cfg
      | None => false
      end
  | Throw _ => false
  end.

(** The loop has consumed all of [pre] and goes on polling. *)
Definition still_polling (hre : HRE) (tx : value) (timeout : Z)
    (pre : list answer) : Prop :=
  fst (fst (track hre tx timeout pre)) = Polling.

Definition absent : answer := Normal None.
Definition mined (c : Z) : answer := Normal (Some {| confirmations := c |}).

(** A receipt exists, whatever its confirmation count. *)
Definition is_mined (a : answer) : bool :=
  match a with
  | Normal (Some _) => true
  | _ => false
  end.

(** The gas price the wrapper passes for a function. *)
Definition override (hre : HRE) (frag : FunctionFragment) : option Z :=
  if constant frag then Some 0 else configured_gasPrice hre.

(** A value with no [wait] function: what the wrapper is meant to hand
    back untracked. *)
Definition lacks_wait (v : value) : Prop :=
  forall f, get v "wait" <> Normal (VFun f).

(** A receipt exists, but with fewer confirmations than required. *)
Definition under_confirmed (hre : HRE) (a : answer) : bool :=
  is_mined a && unconfirmed hre a.

(** ** Sample data *)

Definition sample_hre (net : string) (confs : Z) : HRE :=
  {| deployConfig :=
       Some {| gasPrice := Some 1500; numDeployConfirmations := confs |};
     network := {| name := net |} |}.

Definition unconfigured_hre (net : string) : HRE :=
  {| deployConfig := None; network := {| name := net |} |}.

Definition sample_props : list (string * value) :=
  [("hash", VStr "0x5c504ed4"); ("wait", VFun "wait")].

Definition sample_tx : value := VObj sample_props.

Definition sample_iface : Interface :=
  [ {| fname := "owner"; constant := true |};
    {| fname := "transferOwnership"; constant := false |} ].

(** ** The deployment helpers

    The other functions of the file drive [hre]: its deployments, its
    provider, its tasks.  What these collaborators answer is given by a
    record of services; what the helpers ask of them is recorded, in
    order, as a list of actions. *)

Inductive task : Type :=
| VerifyTask (address : string) (constructorArguments : list value)
| SourcifyTask.

(** The options object handed to [deploy]. *)
Record DeployOptions : Type := {
  opt_contract : option string;
  opt_from : string;
  opt_args : list value;
  opt_log : bool;
  opt_waitConfirmations : Z
}.

Record DeployResult : Type := {
  res_address : string;
  res_abi : Interface;
  res_transactionHash : value;
  res_newlyDeployed : bool
}.

Record DeploymentReceipt : Type := { transactionHash : value }.

(** What [hre.deployments.get] gives; a deployment may carry no receipt. *)
Record Deployment : Type := {
  dep_address : string;
  dep_abi : Interface;
  dep_receipt : option DeploymentReceipt
}.

Record Services : Type := {
  getNamedAccounts : completion string;
  deployments_deploy : string -> DeployOptions -> completion DeployResult;
  deployments_get : string -> completion Deployment;
  waitForTransaction : value -> completion unit;
  getChainId : completion Z;
  network_config_live : option bool;
  run : task -> completion unit;
  getContractFactory : string -> completion Interface;
  ethers_provider : Provider;
  callStatic : Contract -> string -> string -> completion value;
  call_eq : value -> value -> completion value
}.

(** The same services with other answers from [hre.run]. *)
Definition with_run (sv : Services) (r : task -> completion unit)
  : Services :=
  {| getNamedAccounts := getNamedAccounts sv;
     deployments_deploy := deployments_deploy sv;
     deployments_get := deployments_get sv;
     waitForTransaction := waitForTransaction sv;
     getChainId := getChainId sv;
     network_config_live := network_config_live sv;
     run := r;
     getContractFactory := getContractFactory sv;
     ethers_provider := ethers_provider sv;
     callStatic := callStatic sv;
     call_eq := call_eq sv |}.

Inductive action : Type :=
| GetNamedAccounts
| Deploy (name : string) (options : DeployOptions)
| DeploymentsGet (name : string)
| WaitForTransaction (hash : value)
| GetChainId
| Print (msg : string)
| PrintError (e : error)
| Run (t : task)
| GetContractFactory (iface : string)
| PostDeployAction (c : Contract)
| CallStatic (c : Contract) (variable : string) (from : string)
| CallEq (actual expected : value).

(** A computation that may throw, with the actions it has performed. *)
Definition script (A : Type) : Type := completion A * list action.

Definition ret {A : Type} (a : A) : script A := (Normal a, []).

Definition lift {A : Type} (c : completion A) : script A := (c, []).

Definition perform {A : Type} (a : action) (answer : completion A)
  : script A := (answer, [a]).

Definition bind {A B : Type} (m : script A) (k : A -> script B) : script B :=
  match m with
  | (Normal a, acts) => let '(r, acts') := k a in (r, acts ++ acts')
  | (Throw e, acts) => (Throw e, acts)
  end.

(** [try { m } catch (error) { handler }] *)
Definition try_catch {A : Type} (m : script A) (handler : error -> script A)
  : script A :=
  match m with
  | (Throw e, acts) => let '(r, acts') := handler e in (r, acts ++ acts')
  | settled => settled
  end.

Declare Scope script_scope.
Delimit Scope script_scope with script.

Notation "x <- m ;; k" := (bind m (fun x => k))
  (at level 61, m at next level, right associativity) : script_scope.
Notation "m ;;; k" := (bind m (fun _ => k))
  (at level 61, right associativity) : script_scope.

Local Open Scope script_scope.

Definition is_run (a : action) : bool :=
  match a with Run _ => true | _ => false end.

(** [(await getChainId(hre.ethers.provider)) === 31337] *)
Definition isHardhatNode (sv : Services) : script bool :=
  id <- perform GetChainId (getChainId sv) ;;
  ret (id =? 31337).

(** [hre.ethers.provider.getSigner(account)] *)
Definition getSigner (p : Provider) (addr : string) : Signer :=
  {| account := addr; signer_provider := Some p |}.

(** The handle [getAdvancedContract] gives; the global it touches is back
    in place when it returns. *)
Definition advancedContract (hre : HRE) (g : Globals) (c : Contract)
  : completion Contract :=
  fst (getAdvancedContract {| opts_hre := hre; opts_contract := c |} g).

Definition verifyOnEtherscan (sv : Services) (address : string)
    (args : list value) : script unit :=
  try_catch
    (perform (Print "Verifying on Etherscan...") (Normal tt) ;;;
     perform (Run (VerifyTask address args)) (run sv (VerifyTask address args)) ;;;
     perform (Print "Successfully verified on Etherscan") (Normal tt))
    (fun error =>
       perform (Print "Error when verifying bytecode on Etherscan:")
         (Normal tt) ;;;
       perform (PrintError error) (Normal tt)).

Definition verifyOnSourcify (sv : Services) : script unit :=
  try_catch
    (perform (Print "Verifying on Sourcify...") (Normal tt) ;;;
     perform (Run SourcifyTask) (run sv SourcifyTask) ;;;
     perform (Print "Successfully verified on Sourcify") (Normal tt))
    (fun error =>
       perform (Print "Error when verifying bytecode on Sourcify:")
         (Normal tt) ;;;
       perform (PrintError error) (Normal tt)).

Section DeployAndVerifyAndThen.

Variable hre : HRE.
Variable sv : Services.
Variable g : Globals.
Variable name : string.
Variable args : list value.
Variable contract : option string.
Variable iface : option string.
Variable postDeployAction : option (Contract -> completion unit).

(** The part run for a new deployment when [postDeployAction] is given. *)
Definition thenAction (deployer : string) (result : DeployResult)
    (postDeployAction : Contract -> completion unit) : script unit :=
  let signer := getSigner (ethers_provider sv) deployer in
  abi <- match iface with
         | Some i =>
             perform (GetContractFactory i) (getContractFactory sv i)
         | None => ret (res_abi result)
         end ;;
  advanced <- lift (advancedContract hre g
                      (new_Contract g (res_address result) abi
                         (Some (ASigner signer)))) ;;
  perform (PostDeployAction advanced) (postDeployAction advanced).

(** [deployAndVerifyAndThen]: deploy, wait for the transaction, and for a
    new deployment verify it where that makes sense, then run the
    action. *)
Definition deployAndVerifyAndThen : script unit :=
  deployer <- perform GetNamedAccounts (getNamedAccounts sv) ;;
  waitConfirmations <-
    lift match deployConfig hre with
         | Some cfg => Normal (numDeployConfirmations cfg)
         | None => Throw (TypeError "Cannot read properties of undefined")
         end ;;
  let options :=
    {| opt_contract := contract;
       opt_from := deployer;
       opt_args := args;
       opt_log := true;
       opt_waitConfirmations := waitConfirmations |} in
  result <- perform (Deploy name options)
              (deployments_deploy sv name options) ;;
  perform (WaitForTransaction (res_transactionHash result))
    (waitForTransaction sv (res_transactionHash result)) ;;;
  if res_newlyDeployed result then
    hardhat <- isHardhatNode sv ;;
    (if negb hardhat
        && negb match network_config_live sv with
                | Some false => true
                | _ => false
                end
     then
       verifyOnEtherscan sv (res_address result) args ;;;
       verifyOnSourcify sv
     else ret tt) ;;;
    match postDeployAction with
    | Some f => thenAction deployer result f
    | None => ret tt
    end
  else ret tt.

End DeployAndVerifyAndThen.

(** [options.signerOrProvider]: an account address, or a signer or provider
    as it stands. *)
Inductive SignerOrProviderOption : Type :=
| ByAddress (addr : string)
| AsGiven (sp : SignerOrProvider).

Record ArtifactOptions : Type := {
  o_iface : option string;
  o_signerOrProvider : option SignerOrProviderOption
}.

(** The empty string is falsy. *)
Definition truthy_string (s : string) : bool := negb (String.eqb s "").

(** [getContractFromArtifact]; the abi of the artifact is taken as an
    interface already. *)
Definition getContractFromArtifact (hre : HRE) (sv : Services) (g : Globals)
    (name : string) (options : ArtifactOptions) : script Contract :=
  artifact <- perform (DeploymentsGet name) (deployments_get sv name) ;;
  hash <- lift match dep_receipt artifact with
               | Some receipt => Normal (transactionHash receipt)
               | None =>
                   Throw (TypeError "Cannot read properties of undefined")
               end ;;
  perform (WaitForTransaction hash) (waitForTransaction sv hash) ;;;
  iface <- match o_iface options with
           | Some i =>
               if truthy_string i
               then perform (GetContractFactory i) (getContractFactory sv i)
               else ret (dep_abi artifact)
           | None => ret (dep_abi artifact)
           end ;;
  let signerOrProvider :=
    match o_signerOrProvider options with
    | Some (ByAddress addr) =>
        if truthy_string addr
        then ASigner (getSigner (ethers_provider sv) addr)
        else AProvider (ethers_provider sv)
    | Some (AsGiven sp) => sp
    | None => AProvider (ethers_provider sv)
    end in
  lift (advancedContract hre g
          (new_Contract g (dep_address artifact) iface
             (Some signerOrProvider))).

(** [getDeploymentAddress] *)
Definition getDeploymentAddress (sv : Services) (name : string)
  : script string :=
  deployment <- perform (DeploymentsGet name) (deployments_get sv name) ;;
  ret (dep_address deployment).

(** ** Checking a contract variable *)

Definition AddressZero : string :=
  "0x0000000000000000000000000000000000000000".

(** [a === b].  Primitives compare by value; an object is only equal to
    itself, and the objects compared here are distinct. *)
Definition strict_equal (a b : value) : bool :=
  match a, b with
  | VUndefined, VUndefined => true
  | VNull, VNull => true
  | VBool x, VBool y => Bool.eqb x y
  | VNum x, VNum y => x =? y
  | VStr x, VStr y => String.eqb x y
  | VFun f, VFun h => String.eqb f h
  | _, _ => false
  end.

Definition truthy (v : value) : bool :=
  match v with
  | VUndefined | VNull => false
  | VBool b => b
  | VNum n => negb (n =? 0)
  | VStr s => truthy_string s
  | VFun _ | VObj _ => true
  end.

(** How [assertContractVariable] ends. *)
Inductive verdict : Type :=
| Passed
| AssertionError (variable : string) (actual expected : value)
| Raised (e : error).

(** [actual === expected || (actual.eq && actual.eq(expected))], as the
    value [assert] tests. *)
Definition agrees (sv : Services) (actual expected : value) : script value :=
  if strict_equal actual expected then ret (VBool true)
  else
    eq <- lift (get actual "eq") ;;
    if truthy eq then
      if String.eqb (typeof eq) "function"
      then perform (CallEq actual expected) (call_eq sv actual expected)
      else lift (Throw (TypeError "actual.eq is not a function"))
    else ret eq.

(** [assertContractVariable]: read the variable through a handle without
    signer and [assert] that it agrees with [expected]. *)
Definition assertContractVariable (sv : Services) (g : Globals)
    (contract : Contract) (variable : string) (expected : value)
  : verdict * list action :=
  let temp :=
    new_Contract g (address contract) (interface contract)
      (option_map AProvider (provider contract)) in
  match
    (actual <- perform (CallStatic temp variable AddressZero)
                 (callStatic sv temp variable AddressZero) ;;
     ok <- agrees sv actual expected ;;
     ret (actual, ok))
  with
  | (Throw e, acts) => (Raised e, acts)
  | (Normal (actual, ok), acts) =>
      if truthy ok then (Passed, acts)
      else (AssertionError variable actual expected, acts)
  end.

Local Close Scope script_scope.

(** ** Sample services *)

Definition sample_provider : Provider := {| endpoint := "http://localhost:8545" |}.

Definition sample_result (fresh : bool) : DeployResult :=
  {| res_address := "0x5fbdb231";
     res_abi := sample_iface;
     res_transactionHash := VStr "0x5c504ed4";
     res_newlyDeployed := fresh |}.

Definition sample_deployment : Deployment :=
  {| dep_address := "0x5fbdb231";
     dep_abi := sample_iface;
     dep_receipt := Some {| transactionHash := VStr "0x5c504ed4" |} |}.

(** A deployment recorded without its receipt. *)
Definition imported_deployment : Deployment :=
  {| dep_address := "0xe7f1725e";
     dep_abi := sample_iface;
     dep_receipt := None |}.

(** The advanced handle of the sample deployment, on the bare provider. *)
Definition sample_advanced : Contract :=
  {| address := "0x5fbdb231";
     interface := sample_iface;
     signer := None;
     provider := Some sample_provider;
     functions := ["owner"; "transferOwnership"];
     members :=
       [("owner", {| writable := true; bound := Intercepting |});
        ("transferOwnership",
         {| writable := true; bound := Intercepting |})] |}.

Definition is_primitive (v : value) : bool :=
  match v with
  | VBool _ | VNum _ | VStr _ => true
  | _ => false
  end.

(** A big number, as far as the check looks at it. *)
Definition sample_supply : value :=
  VObj [("_hex", VStr "0x64"); ("eq", VFun "eq")].

(** Services of a live network on which every verification fails. *)
Definition sample_services (chain : Z) (fresh : bool) : Services :=
  {| getNamedAccounts := Normal "0xf39fd6e5";
     deployments_deploy := fun _ _ => Normal (sample_result fresh);
     deployments_get := fun name =>
       if String.eqb name "L1Token" then Normal sample_deployment
       else if String.eqb name "Imported" then Normal imported_deployment
       else Throw (Rejected "No deployment found");
     waitForTransaction := fun _ => Normal tt;
     getChainId := Normal chain;
     network_config_live := None;
     run := fun _ => Throw (Rejected "verification failed");
     getContractFactory := fun _ =>
       Normal [ {| fname := "balanceOf"; constant := true |} ];
     ethers_provider := sample_provider;
     callStatic := fun _ variable _ =>
       if String.eqb variable "owner" then Normal (VStr "0xf39fd6e5")
       else if String.eqb variable "totalSupply" then Normal sample_supply
       else Normal VNull;
     call_eq := fun _ _ => Normal (VBool false) |}.

(** Services whose [deploy] is rejected. *)
Definition rejecting_services : Services :=
  {| getNamedAccounts := Normal "0xf39fd6e5";
     deployments_deploy := fun _ _ => Throw (Rejected "nonce too low");
     deployments_get := fun _ => Throw (Rejected "No deployment found");
     waitForTransaction := fun _ => Normal tt;
     getChainId := Normal 5;
     network_config_live := Some true;
     run := fun _ => Normal tt;
     getContractFactory := fun _ => Normal sample_iface;
     ethers_provider := sample_provider;
     callStatic := fun _ _ _ => Normal VUndefined;
     call_eq := fun _ _ => Normal (VBool true) |}.

Definition native : Globals :=
  {| Object_defineProperty := NativeDefineProperty |}.

(** * Properties *)

(** ** The tracker, one pass at a time *)

Lemma loop_body_absent hre t :
  loop_body hre t None =
    if (t + 1 >? maxTimeout) && String.eqb (name (network hre)) "kovan"
    then Resubmit else Continue (t + 1).
Proof. reflexivity. Qed.

Lemma loop_body_continue hre t receipt t' :
  loop_body hre t receipt = Continue t' ->
  unconfirmed hre (Normal receipt) = true /\
  t' = t + absents [Normal receipt].
Proof.
  destruct receipt as [r|]; simpl.
  - destruct (deployConfig hre) as [cfg|]; [|discriminate].
    destruct (confirmations r >=? numDeployConfirmations cfg) eqn:E;
      [discriminate|].
    intros H; injection H as <-. split; lia.
  - destruct (_ && _); [discriminate|].
    intros H; injection H as <-. split; [reflexivity|lia].
Qed.

Lemma loop_body_return hre t receipt :
  loop_body hre t receipt = ReturnTx ->
  exists r cfg,
    receipt = Some r /\ deployConfig hre = Some cfg /\
    numDeployConfirmations cfg <= confirmations r.
Proof.
  destruct receipt as [r|]; simpl.
  - destruct (deployConfig hre) as [cfg|]; [|discriminate].
    destruct (confirmations r >=? numDeployConfirmations cfg) eqn:E;
      [|discriminate].
    intros _. exists r, cfg. repeat split. lia.
  - destruct (_ && _); discriminate.
Qed.

Lemma loop_body_resubmit hre t receipt :
  loop_body hre t receipt = Resubmit ->
  receipt = None /\ maxTimeout < t + 1 /\ name (network hre) = "kovan".
Proof.
  destruct receipt as [r|]; simpl.
  - destruct (deployConfig hre) as [cfg|]; [|discriminate].
    destruct (_ >=? _); discriminate.
  - destruct (t + 1 >? maxTimeout) eqn:E; simpl; [|discriminate].
    destruct (String.eqb _ _) eqn:K; [|discriminate].
    intros _. apply String.eqb_eq in K. repeat split; [lia|assumption].
Qed.

Lemma loop_body_sufficient hre cfg t r :
  deployConfig hre = Some cfg ->
  numDeployConfirmations cfg <= confirmations r ->
  loop_body hre t (Some r) = ReturnTx.
Proof.
  intros Hc Hn. simpl. rewrite Hc.
  destruct (confirmations r >=? numDeployConfirmations cfg) eqn:E;
    [reflexivity|lia].
Qed.

Lemma absents_nonneg l : 0 <= absents l.
Proof. induction l as [|[[r|]|e] l IHl]; cbn [absents]; lia. Qed.

Lemma absents_app l1 l2 : absents (l1 ++ l2) = absents l1 + absents l2.
Proof.
  induction l1 as [|[[r|]|e] l1 IHl]; cbn [absents app]; lia.
Qed.

Lemma polls_app h n m : polls h (n + m) = polls h n ++ polls h m.
Proof.
  induction n as [|n IH]; [reflexivity|].
  cbn [polls Nat.add app]. rewrite IH. reflexivity.
Qed.

Lemma polls_snoc h n : polls h (S n) = polls h n ++ polls h 1.
Proof. rewrite <- polls_app, Nat.add_1_r. reflexivity. Qed.

Lemma queries_polls h n : queries (polls h n) = n.
Proof.
  unfold queries. induction n as [|n IH]; [reflexivity|].
  cbn [polls filter is_sleep is_query List.length]. rewrite IH. reflexivity.
Qed.

Lemma sleeps_polls h n : sleeps (polls h n) = n.
Proof.
  unfold sleeps. induction n as [|n IH]; [reflexivity|].
  cbn [polls filter is_sleep is_query List.length].
  change (1000 =? 1000) with true. cbn [List.length]. rewrite IH.
  reflexivity.
Qed.

(** ** The tracker as a whole *)

Section Tracker.

Variable hre : HRE.
Variable props : list (string * value).

Lemma track_cons t receipt rest :
  track hre (VObj props) t (Normal receipt :: rest) =
    match loop_body hre t receipt with
    | Continue t' =>
        let '(x, evs, rest') := track hre (VObj props) t' rest in
        (x, polls (lookup "hash" props) 1 ++ evs, rest')
    | ReturnTx => (Confirmed, polls (lookup "hash" props) 1, rest)
    | Resubmit => (Dropped, polls (lookup "hash" props) 1 ++ [ConsoleLog warning], rest)
    | Raise e => (Failed e, polls (lookup "hash" props) 1, rest)
    end.
Proof. reflexivity. Qed.

Lemma polls_S n : polls (lookup "hash" props) (S n) = polls (lookup "hash" props) 1 ++ polls (lookup "hash" props) n.
Proof. reflexivity. Qed.

(** A loop that is still polling after [pre] has made one round per
    answer, and goes on with the rest from the counter it has reached. *)
Lemma track_app pre : forall t l,
  still_polling hre (VObj props) t pre ->
  track hre (VObj props) t (pre ++ l) =
    let '(x, evs, rest) := track hre (VObj props) (t + absents pre) l in
    (x, polls (lookup "hash" props) (List.length pre) ++ evs, rest).
Proof.
  unfold still_polling.
  induction pre as [|a pre IH]; intros t l H.
  - simpl. replace (t + 0) with t by lia.
    destruct (track hre (VObj props) t l) as [[x evs] rest]. reflexivity.
  - destruct a as [receipt|e]; [|discriminate H].
    rewrite <- app_comm_cons, track_cons. rewrite track_cons in H.
    destruct (loop_body hre t receipt) as [t'| | |e] eqn:B;
      try discriminate H.
    apply loop_body_continue in B. destruct B as [_ ->].
    assert (K : still_polling hre (VObj props) (t + absents [Normal receipt]) pre).
    { unfold still_polling.
      destruct (track hre (VObj props) (t + absents [Normal receipt]) pre)
        as [[x evs] rest]. exact H. }
    rewrite (IH _ l K). cbn [List.length].
    rewrite (polls_S (List.length pre)).
    assert (E : t + absents [Normal receipt] + absents pre =
                t + absents (Normal receipt :: pre))
      by (destruct receipt; cbn [absents]; lia).
    rewrite E.
    destruct (track hre (VObj props) _ l) as [[x evs] rest].
    rewrite <- app_assoc. reflexivity.
Qed.

Lemma track_polling pre t :
  still_polling hre (VObj props) t pre ->
  track hre (VObj props) t pre = (Polling, polls (lookup "hash" props) (List.length pre), []).
Proof.
  intros H. generalize (track_app pre t [] H).
  cbn [track]. rewrite !app_nil_r. exact (fun E => E).
Qed.

(** How the loop comes to return the transaction. *)
Lemma track_confirmed answers : forall t evs rest,
  track hre (VObj props) t answers = (Confirmed, evs, rest) ->
  exists pre r cfg,
    answers = pre ++ Normal (Some r) :: rest /\
    still_polling hre (VObj props) t pre /\
    deployConfig hre = Some cfg /\
    numDeployConfirmations cfg <= confirmations r /\
    evs = polls (lookup "hash" props) (S (List.length pre)).
Proof.
  induction answers as [|a answers IH]; intros t evs rest H;
    [discriminate H|].
  destruct a as [receipt|e]; [|discriminate H].
  rewrite track_cons in H.
  destruct (loop_body hre t receipt) as [t'| | |e] eqn:B;
    try discriminate H.
  - destruct (track hre (VObj props) t' answers) as [[x evs'] rest'] eqn:T.
    injection H as -> <- ->.
    destruct (IH _ _ _ T) as (pre & r & cfg & -> & P & C & N & ->).
    exists (Normal receipt :: pre), r, cfg.
    repeat split; try assumption.
    unfold still_polling in *. rewrite track_cons, B.
    destruct (track hre (VObj props) t' pre) as [[x evs] rest']. exact P.
  - injection H as <- <-.
    destruct (loop_body_return _ _ _ B) as (r & cfg & -> & C & N).
    exists [], r, cfg. repeat split; assumption.
Qed.

Lemma still_polling_cons t receipt t' pre :
  loop_body hre t receipt = Continue t' ->
  still_polling hre (VObj props) t' pre ->
  still_polling hre (VObj props) t (Normal receipt :: pre).
Proof.
  unfold still_polling. intros B P. rewrite track_cons, B.
  destruct (track hre (VObj props) t' pre) as [[x evs] rest]. exact P.
Qed.

(** How the loop comes to resubmit. *)
Lemma track_dropped answers : forall t evs rest,
  track hre (VObj props) t answers = (Dropped, evs, rest) ->
  exists pre,
    answers = pre ++ Normal None :: rest /\
    still_polling hre (VObj props) t pre /\
    name (network hre) = "kovan" /\
    maxTimeout < t + absents (pre ++ [Normal None]) /\
    evs = polls (lookup "hash" props) (S (List.length pre))
            ++ [ConsoleLog warning].
Proof.
  induction answers as [|a answers IH]; intros t evs rest H;
    [discriminate H|].
  destruct a as [receipt|e]; [|discriminate H].
  rewrite track_cons in H.
  destruct (loop_body hre t receipt) as [t'| | |e] eqn:B;
    try discriminate H.
  - destruct (track hre (VObj props) t' answers) as [[x evs'] rest'] eqn:T.
    injection H as -> <- ->.
    destruct (IH _ _ _ T) as (pre & -> & P & K & M & ->).
    exists (Normal receipt :: pre).
    destruct (loop_body_continue _ _ _ _ B) as [_ E].
    repeat split; try assumption.
    + exact (still_polling_cons _ _ _ _ B P).
    + rewrite E in M. destruct receipt; cbn [absents app] in *; lia.
  - injection H as <- <-.
    destruct (loop_body_resubmit _ _ _ B) as (-> & M & K).
    exists []. repeat split; try assumption; simpl; lia.
Qed.

(** Answers that leave the transaction unconfirmed keep the loop polling,
    as long as the resubmission does not fire. *)
Lemma track_unconfirmed pre : forall t,
  forallb (unconfirmed hre) pre = true ->
  name (network hre) <> "kovan" \/ t + absents pre <= maxTimeout ->
  still_polling hre (VObj props) t pre.
Proof.
  induction pre as [|a pre IH]; intros t U G; [reflexivity|].
  cbn [forallb] in U. apply andb_true_iff in U. destruct U as [Ua U].
  destruct a as [[r|]|e]; [| |discriminate Ua].
  - apply (still_polling_cons _ _ t).
    + cbn [unconfirmed] in Ua. cbn [loop_body].
      destruct (deployConfig hre) as [cfg|]; [|discriminate].
      destruct (confirmations r >=? numDeployConfirmations cfg) eqn:E;
        [exfalso; rewrite Z.geb_leb in E; lia|reflexivity].
    + apply IH; [exact U|exact G].
  - pose proof (absents_nonneg pre) as A.
    apply (still_polling_cons _ _ (t + 1)).
    + rewrite loop_body_absent.
      destruct G as [G|G].
      * apply String.eqb_neq in G. rewrite G, andb_false_r. reflexivity.
      * cbn [absents] in G.
        destruct (t + 1 >? maxTimeout) eqn:E;
          [exfalso; rewrite Z.gtb_ltb in E; lia|reflexivity].
    + apply IH; [exact U|].
      destruct G as [G|G]; [left; exact G|right].
      cbn [absents] in G. lia.
Qed.

(** Whatever happens, the loop makes no submission, and it logs only when
    it resubmits. *)
Lemma track_quiet answers : forall t x evs rest,
  track hre (VObj props) t answers = (x, evs, rest) ->
  submits evs = 0%nat /\ (x <> Dropped -> logs evs = 0%nat).
Proof.
  induction answers as [|a answers IH]; intros t x evs rest H.
  - injection H as <- <- <-. split; reflexivity.
  - destruct a as [receipt|e].
    + rewrite track_cons in H.
      destruct (loop_body hre t receipt) as [t'| | |e].
      * destruct (track hre (VObj props) t' answers)
          as [[x' evs'] rest'] eqn:T.
        injection H as <- <- <-.
        destruct (IH _ _ _ _ T) as [S L]. split; [exact S|exact L].
      * injection H as <- <- <-. split; reflexivity.
      * injection H as <- <- <-. split; [reflexivity|congruence].
      * injection H as <- <- <-. split; reflexivity.
    + injection H as <- <- <-. split; reflexivity.
Qed.

End Tracker.

(** ** The wrapped method *)

Section Wrapped.

Variable hre : HRE.
Variable iface : Interface.
Variable fnName : string.
Variable args : list value.
Variable frag : FunctionFragment.
Hypothesis known : getFunction iface fnName = Normal frag.

Lemma advanced_pending answers :
  advanced hre iface fnName args [] answers =
    (Pending, [Submit fnName args (override hre frag)]).
Proof. cbn [advanced]. rewrite known. reflexivity. Qed.

Lemma advanced_rejected e later answers :
  advanced hre iface fnName args (Throw e :: later) answers =
    (Thrown e, [Submit fnName args (override hre frag)]).
Proof. cbn [advanced]. rewrite known. reflexivity. Qed.

(** A result that is not an object comes back at once. *)
Lemma advanced_not_object v later answers :
  typeof v <> "object" ->
  advanced hre iface fnName args (Normal v :: later) answers =
    (Returned v, [Submit fnName args (override hre frag)]).
Proof.
  intros H. apply String.eqb_neq in H.
  cbn [advanced]. rewrite known, H. reflexivity.
Qed.

(** So does an object whose [wait] is not a function. *)
Lemma advanced_no_wait props later answers :
  typeof (lookup "wait" props) <> "function" ->
  advanced hre iface fnName args (Normal (VObj props) :: later) answers =
    (Returned (VObj props), [Submit fnName args (override hre frag)]).
Proof.
  intros H. apply String.eqb_neq in H.
  cbn [advanced]. rewrite known. cbn [typeof get negb String.eqb].
  cbn. rewrite H. reflexivity.
Qed.

(** A transaction is handed to the tracker. *)
Lemma advanced_transaction props f later answers :
  lookup "wait" props = VFun f ->
  advanced hre iface fnName args (Normal (VObj props) :: later) answers =
    let call := Submit fnName args (override hre frag) in
    match track hre (VObj props) 0 answers with
    | (Confirmed, evs, _) => (Returned (VObj props), call :: evs)
    | (Dropped, evs, rest) =>
        let '(o, evs') := advanced hre iface fnName args later rest in
        (o, call :: evs ++ evs')
    | (Failed e, evs, _) => (Thrown e, call :: evs)
    | (Polling, evs, _) => (Pending, call :: evs)
    end.
Proof.
  intros W. cbn [advanced]. rewrite known.
  cbn [typeof get]. rewrite W. reflexivity.
Qed.

Lemma advanced_null later answers :
  advanced hre iface fnName args (Normal VNull :: later) answers =
    (Thrown (TypeError "Cannot read properties of null"),
     [Submit fnName args (override hre frag)]).
Proof. cbn [advanced]. rewrite known. reflexivity. Qed.

Lemma no_submit_among evs (P : event -> Prop) :
  submits evs = 0%nat ->
  Forall (fun e => is_submit e = true -> P e) evs.
Proof.
  unfold submits. induction evs as [|e evs IH]; intros H; constructor.
  - cbn [filter] in H. destruct (is_submit e); [discriminate H|].
    discriminate.
  - apply IH. cbn [filter] in H. destruct (is_submit e);
      [discriminate H|exact H].
Qed.

(** Every call of the wrapper opens with the submission, and every
    submission it makes, resubmissions included, names the same function,
    the same arguments and the same gas price. *)
Lemma advanced_submissions submissions : forall answers,
  exists evs,
    snd (advanced hre iface fnName args submissions answers) =
      Submit fnName args (override hre frag) :: evs /\
    Forall (fun e => is_submit e = true ->
                     e = Submit fnName args (override hre frag)) evs.
Proof.
  induction submissions as [|[v|e] later IH]; intros answers.
  - rewrite advanced_pending. exists []. split; [reflexivity|constructor].
  - destruct v as [| |b|n|s|f|props];
      try (rewrite advanced_not_object by discriminate;
           exists []; split; [reflexivity|constructor]).
    + rewrite advanced_null. exists []. split; [reflexivity|constructor].
    + destruct (lookup "wait" props) as [| |b|n|s|f|ps] eqn:W;
        try (rewrite advanced_no_wait by (rewrite W; discriminate);
             exists []; split; [reflexivity|constructor]).
      rewrite (advanced_transaction props f later answers W).
      destruct (track hre (VObj props) 0 answers) as [[x evs] rest] eqn:T.
      destruct (track_quiet _ _ _ _ _ _ _ T) as [Q _].
      cbv zeta.
      destruct x; try (exists evs; split; [reflexivity|];
                       apply no_submit_among; exact Q).
      destruct (IH rest) as (evs' & E & F).
      destruct (advanced hre iface fnName args later rest) as [o tr].
      cbn [snd] in *. subst tr. eexists. split; [reflexivity|].
      apply Forall_app. split; [apply no_submit_among; exact Q|].
      constructor; [reflexivity|exact F].
  - rewrite advanced_rejected. exists []. split; [reflexivity|constructor].
Qed.

(** Apart from [null], a result without a [wait] function is returned at
    once, with no polling. *)
Lemma advanced_short_circuit v later answers :
  v <> VNull ->
  lacks_wait v ->
  advanced hre iface fnName args (Normal v :: later) answers =
    (Returned v, [Submit fnName args (override hre frag)]).
Proof.
  intros N L.
  destruct v as [| |b|n|s|f|props];
    try (apply advanced_not_object; discriminate).
  - contradiction.
  - apply advanced_no_wait.
    destruct (lookup "wait" props) as [| |b|n|s|f|ps] eqn:W;
      try discriminate.
    exfalso. apply (L f). cbn [get]. rewrite W. reflexivity.
Qed.

(** The wrapper throws only what the submission threw, or after a
    submission that came back as an object. *)
Lemma advanced_thrown submissions answers e :
  fst (advanced hre iface fnName args submissions answers) = Thrown e ->
  exists s later,
    submissions = s :: later /\
    (s = Throw e \/ exists tx, s = Normal tx /\ typeof tx = "object").
Proof.
  destruct submissions as [|[v|e'] later].
  - rewrite advanced_pending. discriminate.
  - intros H. exists (Normal v), later. split; [reflexivity|].
    right. exists v. split; [reflexivity|].
    destruct v; try reflexivity;
      rewrite advanced_not_object in H by discriminate; discriminate H.
  - rewrite advanced_rejected. intros H. injection H as ->.
    exists (Throw e), later. split; [reflexivity|left; reflexivity].
Qed.

End Wrapped.

(** ** Read-only calls *)

(** C3. Invoking a method the interface classifies as read-only
    ([constant]) submits the underlying call with gas price zero, whatever
    gas price the deployment configuration holds: the call opens with that
    submission, and every submission made in the call carries price zero. *)
Theorem view_call_submits_with_zero_gas_price
    hre iface fnName args frag submissions answers :
  getFunction iface fnName = Normal frag ->
  constant frag = true ->
  exists evs,
    snd (advanced hre iface fnName args submissions answers) =
      Submit fnName args (Some 0) :: evs /\
    Forall (fun e => is_submit e = true -> e = Submit fnName args (Some 0))
           evs.
Proof.
  intros K C.
  destruct (advanced_submissions hre iface fnName args frag K
              submissions answers) as (evs & E & F).
  unfold override in *. rewrite C in *. exists evs. split; assumption.
Qed.

Lemma view_call_submits_with_zero_gas_price_witness :
  exists evs,
    snd (advanced (sample_hre "goerli" 2) sample_iface "owner" []
           [Normal (VStr "0x70997970")] []) =
      Submit "owner" [] (Some 0) :: evs /\
    Forall (fun e => is_submit e = true -> e = Submit "owner" [] (Some 0))
           evs.
Proof.
  apply (view_call_submits_with_zero_gas_price
           (sample_hre "goerli" 2) sample_iface "owner" []
           {| fname := "owner"; constant := true |});
    reflexivity.
Defined.

(** ** Results that are not transactions *)

(** C6. A [null] result has no [wait] function, and yet it is not handed
    back: [typeof null] is ['object'], so the wrapper goes on to read
    [tx.wait] and the call throws. *)
Theorem null_result_is_not_returned :
  lacks_wait VNull /\
  advanced (sample_hre "goerli" 2) sample_iface "owner" [] [Normal VNull] []
    = (Thrown (TypeError "Cannot read properties of null"),
       [Submit "owner" [] (Some 0)]).
Proof.
  split; [intros f; discriminate|reflexivity].
Qed.

(** C10. When the underlying submission resolves to [null] the wrapped
    call throws a type error on reading [wait]; it neither returns [null]
    nor polls the node. *)
Theorem null_submission_throws
    hre iface fnName args frag later answers :
  getFunction iface fnName = Normal frag ->
  typeof VNull = "object" /\
  get VNull "wait" = Throw (TypeError "Cannot read properties of null") /\
  advanced hre iface fnName args (Normal VNull :: later) answers =
    (Thrown (TypeError "Cannot read properties of null"),
     [Submit fnName args (override hre frag)]) /\
  fst (advanced hre iface fnName args (Normal VNull :: later) answers)
    <> Returned VNull /\
  queries (snd (advanced hre iface fnName args (Normal VNull :: later)
                  answers)) = 0%nat.
Proof.
  intros K. rewrite (advanced_null hre iface fnName args frag K).
  repeat split. discriminate.
Qed.

Lemma null_submission_throws_witness :
  advanced (sample_hre "kovan" 1) sample_iface "transferOwnership"
    [VStr "0x3c44cddd"] [Normal VNull] [absent; mined 1]
  = (Thrown (TypeError "Cannot read properties of null"),
     [Submit "transferOwnership" [VStr "0x3c44cddd"] (Some 1500)]).
Proof.
  apply (null_submission_throws (sample_hre "kovan" 1) sample_iface
           "transferOwnership" [VStr "0x3c44cddd"]
           {| fname := "transferOwnership"; constant := false |}).
  reflexivity.
Defined.

(** ** A configuration without a gas price *)

(** C7. When reading the gas price from the deployment configuration
    throws, a mutating method is submitted all the same, with no gas price
    override, and the missing price makes nothing fail: the call opens with
    the submission, a result that is not an object is returned, and an
    error can only be the one the submission threw or come after a
    submission that gave an object. *)
Theorem missing_gas_price_still_submits
    hre iface fnName args frag e submissions answers :
  read_gasPrice hre = Throw e ->
  getFunction iface fnName = Normal frag ->
  constant frag = false ->
  (exists evs,
     snd (advanced hre iface fnName args submissions answers) =
       Submit fnName args None :: evs /\
     Forall (fun ev => is_submit ev = true -> ev = Submit fnName args None)
            evs) /\
  (forall v later,
     submissions = Normal v :: later ->
     typeof v <> "object" ->
     advanced hre iface fnName args submissions answers =
       (Returned v, [Submit fnName args None])) /\
  (forall e',
     fst (advanced hre iface fnName args submissions answers) = Thrown e' ->
     exists s later,
       submissions = s :: later /\
       (s = Throw e' \/ exists tx, s = Normal tx /\ typeof tx = "object")).
Proof.
  intros R K C.
  assert (O : override hre frag = None).
  { unfold override, configured_gasPrice. rewrite C, R. reflexivity. }
  split; [|split].
  - destruct (advanced_submissions hre iface fnName args frag K
                submissions answers) as (evs & E & F).
    rewrite O in *. exists evs. split; assumption.
  - intros v later -> T.
    rewrite (advanced_not_object hre iface fnName args frag K) by exact T.
    rewrite O. reflexivity.
  - intros e'. apply (advanced_thrown hre iface fnName args frag K).
Qed.

Lemma missing_gas_price_still_submits_witness :
  advanced (unconfigured_hre "goerli") sample_iface "transferOwnership"
    [VStr "0x3c44cddd"] [Normal (VBool true)] []
  = (Returned (VBool true),
     [Submit "transferOwnership" [VStr "0x3c44cddd"] None]).
Proof.
  refine (proj1 (proj2
    (missing_gas_price_still_submits (unconfigured_hre "goerli")
       sample_iface "transferOwnership" [VStr "0x3c44cddd"]
       {| fname := "transferOwnership"; constant := false |}
       (TypeError "Cannot read properties of undefined")
       [Normal (VBool true)] [] _ _ _)) (VBool true) [] _ _);
    try reflexivity.
  discriminate.
Defined.

(** ** Confirmation *)

(** C1. Whatever the required number of confirmations (zero or more) and
    whatever the node answers, the tracker returns only when the answer it
    has just observed is a receipt with at least that many confirmations;
    and when the loop, still polling after the answers seen so far, observes
    such a receipt, it returns at that very poll, and the wrapper returns
    the transaction record. *)
Theorem tracker_returns_exactly_at_threshold
    hre cfg props t answers :
  deployConfig hre = Some cfg ->
  (forall evs rest,
     track hre (VObj props) t answers = (Confirmed, evs, rest) ->
     exists pre r,
       answers = pre ++ Normal (Some r) :: rest /\
       numDeployConfirmations cfg <= confirmations r /\
       still_polling hre (VObj props) t pre /\
       queries evs = S (List.length pre)) /\
  (forall pre r rest,
     answers = pre ++ Normal (Some r) :: rest ->
     still_polling hre (VObj props) t pre ->
     numDeployConfirmations cfg <= confirmations r ->
     track hre (VObj props) t answers =
       (Confirmed, polls (lookup "hash" props) (S (List.length pre)), rest) /\
     forall iface fnName args frag f later,
       getFunction iface fnName = Normal frag ->
       lookup "wait" props = VFun f ->
       t = 0 ->
       fst (advanced hre iface fnName args (Normal (VObj props) :: later)
              answers) = Returned (VObj props)).
Proof.
  intros C. split.
  - intros evs rest T.
    destruct (track_confirmed _ _ _ _ _ _ T)
      as (pre & r & cfg' & -> & P & C' & N & ->).
    exists pre, r. rewrite C in C'. injection C' as <-.
    repeat split; try assumption. apply queries_polls.
  - intros pre r rest -> P N.
    assert (T : track hre (VObj props) t (pre ++ Normal (Some r) :: rest) =
                (Confirmed,
                 polls (lookup "hash" props) (S (List.length pre)), rest)).
    { rewrite (track_app hre props pre t _ P), track_cons.
      rewrite (loop_body_sufficient hre cfg _ r C N).
      rewrite (polls_snoc _ (List.length pre)). reflexivity. }
    split; [exact T|].
    intros iface fnName args frag f later K W ->.
    rewrite (advanced_transaction hre iface fnName args frag K props f
               later _ W), T.
    reflexivity.
Qed.

Lemma tracker_returns_exactly_at_threshold_witness :
  track (sample_hre "goerli" 2) sample_tx 0
    [absent; mined 1; mined 2; absent]
  = (Confirmed, polls (VStr "0x5c504ed4") 3, [absent]).
Proof.
  refine (proj1 (proj2
    (tracker_returns_exactly_at_threshold (sample_hre "goerli" 2)
       {| gasPrice := Some 1500; numDeployConfirmations := 2 |}
       sample_props 0 [absent; mined 1; mined 2; absent] eq_refl)
    [absent; mined 1] {| confirmations := 2 |} [absent] eq_refl _ _)).
  - reflexivity.
  - simpl. lia.
Defined.

(** The loop is still polling after answers that leave the transaction
    unconfirmed, unless the network is kovan and more than [maxTimeout] of
    them said that there is no receipt: the first sufficient receipt after
    such answers ends the loop. *)
Corollary first_sufficient_receipt_returns
    hre cfg props pre r rest :
  deployConfig hre = Some cfg ->
  forallb (unconfirmed hre) pre = true ->
  name (network hre) <> "kovan" \/ absents pre <= maxTimeout ->
  numDeployConfirmations cfg <= confirmations r ->
  track hre (VObj props) 0 (pre ++ Normal (Some r) :: rest) =
    (Confirmed, polls (lookup "hash" props) (S (List.length pre)), rest).
Proof.
  intros C U G N.
  rewrite (track_app hre props pre 0 _
             (track_unconfirmed hre props pre 0 U G)), track_cons.
  rewrite (loop_body_sufficient hre cfg _ r C N).
  rewrite (polls_snoc _ (List.length pre)). reflexivity.
Qed.

(** ** Networks other than kovan *)

Lemma track_absent_off_kovan hre props n : forall t,
  name (network hre) <> "kovan" ->
  track hre (VObj props) t (repeat absent n) =
    (Polling, polls (lookup "hash" props) n, []).
Proof.
  intros t K.
  rewrite <- (repeat_length absent n) at 2.
  apply track_polling, track_unconfirmed; [|left; exact K].
  clear. induction n as [|n IH]; [reflexivity|exact IH].
Qed.

Lemma track_off_kovan hre props t answers x evs rest :
  name (network hre) <> "kovan" ->
  track hre (VObj props) t answers = (x, evs, rest) ->
  x <> Dropped /\ submits evs = 0%nat /\ logs evs = 0%nat.
Proof.
  intros K T.
  assert (D : x <> Dropped).
  { intros ->.
    destruct (track_dropped _ _ _ _ _ _ T) as (pre & _ & _ & E & _).
    exact (K E). }
  destruct (track_quiet _ _ _ _ _ _ _ T) as [Q L].
  repeat split; [exact D|exact Q|exact (L D)].
Qed.

(** C2. On a network whose name is not kovan the tracker never resubmits:
    it never leaves the loop by the resubmission branch and logs no
    warning, after any number of rounds without a receipt it is still
    polling, it returns only on a receipt that meets the threshold, and a
    call of the wrapper makes a single submission. *)
Theorem no_resubmission_off_kovan hre :
  name (network hre) <> "kovan" ->
  (forall props t answers,
     let '(x, evs, rest) := track hre (VObj props) t answers in
     x <> Dropped /\ logs evs = 0%nat /\
     (x = Confirmed ->
      exists pre r cfg,
        answers = pre ++ Normal (Some r) :: rest /\
        deployConfig hre = Some cfg /\
        numDeployConfirmations cfg <= confirmations r)) /\
  (forall props t n,
     track hre (VObj props) t (repeat absent n) =
       (Polling, polls (lookup "hash" props) n, [])) /\
  (forall iface fnName args frag f props later n,
     getFunction iface fnName = Normal frag ->
     lookup "wait" props = VFun f ->
     advanced hre iface fnName args (Normal (VObj props) :: later)
       (repeat absent n) =
     (Pending,
      Submit fnName args (override hre frag)
        :: polls (lookup "hash" props) n)) /\
  (forall iface fnName args submissions answers,
     let evs := snd (advanced hre iface fnName args submissions answers) in
     (submits evs <= 1)%nat /\ logs evs = 0%nat).
Proof.
  intros K. split; [|split; [|split]].
  - intros props t answers.
    destruct (track hre (VObj props) t answers) as [[x evs] rest] eqn:T.
    destruct (track_off_kovan _ _ _ _ _ _ _ K T) as (D & _ & L).
    split; [exact D|]. split; [exact L|].
    intros ->.
    destruct (track_confirmed _ _ _ _ _ _ T)
      as (pre & r & cfg & E & _ & C & N & _).
    exists pre, r, cfg. repeat split; assumption.
  - intros props t n. apply track_absent_off_kovan. exact K.
  - intros iface fnName args frag f props later n G W.
    rewrite (advanced_transaction hre iface fnName args frag G props f
               later _ W).
    rewrite (track_absent_off_kovan hre props n 0 K). reflexivity.
  - intros iface fnName args submissions answers. cbv zeta.
    destruct (getFunction iface fnName) as [frag|e] eqn:G.
    2:{ destruct submissions; cbn [advanced]; rewrite G;
          (split; [apply Nat.le_0_l|reflexivity]). }
    destruct submissions as [|[v|e] later].
    + rewrite (advanced_pending _ _ _ _ _ G). split; [apply le_n|reflexivity].
    + destruct v as [| |b|n|s|f|props];
        try (rewrite (advanced_not_object _ _ _ _ _ G) by discriminate;
             (split; [apply le_n|reflexivity])).
      * rewrite (advanced_null _ _ _ _ _ G). split; [apply le_n|reflexivity].
      * destruct (lookup "wait" props) as [| |b|n|s|f|ps] eqn:W;
          try (rewrite (advanced_no_wait _ _ _ _ _ G)
                 by (rewrite W; discriminate);
               (split; [apply le_n|reflexivity])).
        rewrite (advanced_transaction _ _ _ _ _ G props f later answers W).
        destruct (track hre (VObj props) 0 answers) as [[x evs] rest] eqn:T.
        destruct (track_off_kovan _ _ _ _ _ _ _ K T) as (D & Q & L).
        cbv zeta. unfold submits, logs in *.
        destruct x; try (contradiction D; reflexivity);
          cbn [snd filter is_submit is_log List.length];
          rewrite Q, L; (split; [apply le_n|reflexivity]).
    + rewrite (advanced_rejected _ _ _ _ _ G). split; [apply le_n|reflexivity].
Qed.

Lemma no_resubmission_off_kovan_witness :
  advanced (sample_hre "goerli" 2) sample_iface "transferOwnership"
    [VStr "0x3c44cddd"] [Normal sample_tx; Normal sample_tx]
    (repeat absent 500)
  = (Pending,
     Submit "transferOwnership" [VStr "0x3c44cddd"] (Some 1500)
       :: polls (VStr "0x5c504ed4") 500).
Proof.
  refine (proj1 (proj2 (proj2
    (no_resubmission_off_kovan (sample_hre "goerli" 2) _)))
    sample_iface "transferOwnership" [VStr "0x3c44cddd"]
    {| fname := "transferOwnership"; constant := false |}
    "wait" sample_props [Normal sample_tx] 500%nat eq_refl eq_refl).
  simpl. discriminate.
Defined.

(** ** The scenario of two confirmations *)

(** C4, as the specification has it, fails: with two confirmations
    required and the answers absent, absent, one confirmation, two
    confirmations, the tracker does return on the fourth poll, but it has
    slept four times, not three: each round sleeps before it polls. *)
Lemma three_sleeps_before_fourth_poll_refuted :
  ~ (let '(x, evs, _) :=
       track (sample_hre "goerli" 2) sample_tx 0
         [absent; absent; mined 1; mined 2] in
     x = Confirmed /\ queries evs = 4%nat /\ sleeps evs = 3%nat).
Proof.
  vm_compute. intros (_ & _ & H). discriminate H.
Qed.

(** C4, amended. With two confirmations required and the answers absent,
    absent, one confirmation, two confirmations, the tracker returns on the
    fourth poll after exactly four one-second sleeps, one before each poll,
    and the wrapper returns the transaction record. *)
Theorem four_polls_four_sleeps hre cfg props rest :
  deployConfig hre = Some cfg ->
  numDeployConfirmations cfg = 2 ->
  track hre (VObj props) 0 ([absent; absent; mined 1; mined 2] ++ rest) =
    (Confirmed, polls (lookup "hash" props) 4, rest) /\
  queries (polls (lookup "hash" props) 4) = 4%nat /\
  sleeps (polls (lookup "hash" props) 4) = 4%nat /\
  forall iface fnName args frag f later,
    getFunction iface fnName = Normal frag ->
    lookup "wait" props = VFun f ->
    advanced hre iface fnName args (Normal (VObj props) :: later)
      ([absent; absent; mined 1; mined 2] ++ rest) =
    (Returned (VObj props),
     Submit fnName args (override hre frag)
       :: polls (lookup "hash" props) 4).
Proof.
  intros C N.
  assert (T : track hre (VObj props) 0
                ([absent; absent; mined 1; mined 2] ++ rest) =
              (Confirmed, polls (lookup "hash" props) 4, rest)).
  { change ([absent; absent; mined 1; mined 2] ++ rest)
      with ([absent; absent; mined 1] ++ mined 2 :: rest).
    apply (first_sufficient_receipt_returns hre cfg props
             [absent; absent; mined 1] {| confirmations := 2 |} rest C).
    - cbn [forallb unconfirmed absent mined confirmations]. rewrite C, N.
      reflexivity.
    - right. vm_compute. discriminate.
    - rewrite N. cbn [confirmations]. lia. }
  split; [exact T|]. split; [apply queries_polls|].
  split; [apply sleeps_polls|].
  intros iface fnName args frag f later K W.
  rewrite (advanced_transaction hre iface fnName args frag K props f
             later _ W), T.
  reflexivity.
Qed.

Lemma four_polls_four_sleeps_witness :
  track (sample_hre "kovan" 2) sample_tx 0
    [absent; absent; mined 1; mined 2; mined 3]
  = (Confirmed, polls (VStr "0x5c504ed4") 4, [mined 3]).
Proof.
  apply (four_polls_four_sleeps (sample_hre "kovan" 2)
           {| gasPrice := Some 1500; numDeployConfirmations := 2 |}
           sample_props [mined 3]); reflexivity.
Defined.

(** ** Resubmission on kovan *)

Lemma track_absent_120 hre props :
  track hre (VObj props) 0 (repeat absent 120) =
    (Polling, polls (lookup "hash" props) 120, []).
Proof.
  rewrite <- (repeat_length absent 120) at 2.
  apply track_polling, track_unconfirmed; [reflexivity|].
  right. vm_compute. discriminate.
Qed.

Lemma track_absent_121 hre props rest :
  name (network hre) = "kovan" ->
  track hre (VObj props) 0 (repeat absent 121 ++ rest) =
    (Dropped,
     polls (lookup "hash" props) 121 ++ [ConsoleLog warning], rest).
Proof.
  intros K.
  change (repeat absent 121) with (repeat absent 120 ++ [absent]).
  rewrite <- app_assoc.
  rewrite (track_app hre props (repeat absent 120) 0).
  2:{ unfold still_polling. rewrite track_absent_120. reflexivity. }
  change ([absent] ++ rest)
    with (@Normal (option TransactionReceipt) None :: rest).
  rewrite track_cons, loop_body_absent, K, repeat_length.
  change (0 + absents (repeat absent 120) + 1 >? maxTimeout) with true.
  change (true && String.eqb "kovan" "kovan") with true. cbv iota.
  rewrite (polls_snoc _ 120), <- app_assoc. reflexivity.
Qed.

(** C5. On kovan, when the first 121 polls find no receipt, the wrapper is
    still waiting after round 120, and at round 121 it logs the warning
    and calls the wrapped method again with the same arguments; the result
    of the whole call is the result of that new call, whose first act is
    the new submission, and the stalled transaction plays no further
    part. *)
Theorem kovan_resubmits_at_round_121
    hre iface fnName args frag f props later rest :
  name (network hre) = "kovan" ->
  getFunction iface fnName = Normal frag ->
  lookup "wait" props = VFun f ->
  let call := Submit fnName args (override hre frag) in
  let again := advanced hre iface fnName args later rest in
  advanced hre iface fnName args (Normal (VObj props) :: later)
    (repeat absent 120) =
    (Pending, call :: polls (lookup "hash" props) 120) /\
  advanced hre iface fnName args (Normal (VObj props) :: later)
    (repeat absent 121 ++ rest) =
    (fst again,
     call :: polls (lookup "hash" props) 121
       ++ [ConsoleLog warning] ++ snd again) /\
  exists evs, snd again = call :: evs.
Proof.
  intros K G W call again. split; [|split].
  - rewrite (advanced_transaction hre iface fnName args frag G props f
               later _ W), track_absent_120.
    reflexivity.
  - rewrite (advanced_transaction hre iface fnName args frag G props f
               later _ W), (track_absent_121 hre props rest K).
    cbv zeta. subst again.
    destruct (advanced hre iface fnName args later rest) as [o evs].
    rewrite <- app_assoc. reflexivity.
  - destruct (advanced_submissions hre iface fnName args frag G later rest)
      as (evs & E & _).
    exists evs. exact E.
Qed.

Lemma kovan_resubmits_at_round_121_witness :
  advanced (sample_hre "kovan" 1) sample_iface "transferOwnership"
    [VStr "0x3c44cddd"] [Normal sample_tx; Normal (VNum 7)]
    (repeat absent 121 ++ [mined 1])
  = (Returned (VNum 7),
     Submit "transferOwnership" [VStr "0x3c44cddd"] (Some 1500)
       :: polls (VStr "0x5c504ed4") 121
       ++ [ConsoleLog warning;
           Submit "transferOwnership" [VStr "0x3c44cddd"] (Some 1500)]).
Proof.
  apply (kovan_resubmits_at_round_121 (sample_hre "kovan" 1) sample_iface
           "transferOwnership" [VStr "0x3c44cddd"]
           {| fname := "transferOwnership"; constant := false |}
           "wait" sample_props [Normal (VNum 7)] [mined 1]);
    reflexivity.
Defined.

(** ** The round counter *)

Lemma track_under_confirmed hre props answers : forall t,
  forallb (under_confirmed hre) answers = true ->
  still_polling hre (VObj props) t answers.
Proof.
  induction answers as [|a answers IH]; intros t U; [reflexivity|].
  cbn [forallb] in U. apply andb_true_iff in U. destruct U as [Ua U].
  unfold under_confirmed in Ua. apply andb_true_iff in Ua.
  destruct Ua as [M Ua].
  destruct a as [[r|]|e]; try discriminate M.
  apply (still_polling_cons _ _ _ _ t); [|apply IH; exact U].
  cbn [unconfirmed] in Ua. cbn [loop_body].
  destruct (deployConfig hre) as [cfg|]; [|discriminate].
  destruct (confirmations r >=? numDeployConfirmations cfg) eqn:E;
    [exfalso; rewrite Z.geb_leb in E; lia|reflexivity].
Qed.

(** C9. The round counter moves only on a poll that finds no receipt: a
    receipt never makes the loop resubmit and never changes the counter,
    an absent receipt that lets the loop go on adds one to it.  So the loop
    resubmits only on kovan, on an absent receipt, once the absent receipts
    it has counted exceed [maxTimeout]; and a transaction that is mined but
    stays short of the required confirmations keeps the loop polling for
    ever, with a single submission, on every network. *)
Theorem only_absent_receipts_count hre props :
  (forall t r,
     loop_body hre t (Some r) <> Resubmit /\
     forall t', loop_body hre t (Some r) = Continue t' -> t' = t) /\
  (forall t t', loop_body hre t None = Continue t' -> t' = t + 1) /\
  (forall t answers evs rest,
     track hre (VObj props) t answers = (Dropped, evs, rest) ->
     name (network hre) = "kovan" /\
     exists pre,
       answers = pre ++ Normal None :: rest /\
       maxTimeout < t + absents (pre ++ [Normal None])) /\
  (forall t answers,
     forallb (under_confirmed hre) answers = true ->
     track hre (VObj props) t answers =
       (Polling, polls (lookup "hash" props) (List.length answers), [])) /\
  (forall iface fnName args frag f later answers,
     getFunction iface fnName = Normal frag ->
     lookup "wait" props = VFun f ->
     forallb (under_confirmed hre) answers = true ->
     advanced hre iface fnName args (Normal (VObj props) :: later) answers =
       (Pending,
        Submit fnName args (override hre frag)
          :: polls (lookup "hash" props) (List.length answers))).
Proof.
  split; [|split; [|split; [|split]]].
  - intros t r. split.
    + intros B. apply loop_body_resubmit in B. destruct B as [B _].
      discriminate B.
    + intros t' B. apply loop_body_continue in B. destruct B as [_ ->].
      cbn [absents]. lia.
  - intros t t' B. apply loop_body_continue in B. destruct B as [_ ->].
    cbn [absents]. lia.
  - intros t answers evs rest T.
    destruct (track_dropped _ _ _ _ _ _ T) as (pre & E & _ & K & M & _).
    split; [exact K|]. exists pre. split; assumption.
  - intros t answers U.
    apply track_polling, track_under_confirmed. exact U.
  - intros iface fnName args frag f later answers G W U.
    rewrite (advanced_transaction hre iface fnName args frag G props f
               later _ W).
    rewrite (track_polling hre props answers 0
               (track_under_confirmed hre props answers 0 U)).
    reflexivity.
Qed.

Lemma only_absent_receipts_count_witness :
  advanced (sample_hre "kovan" 3) sample_iface "transferOwnership"
    [VStr "0x3c44cddd"] [Normal sample_tx; Normal sample_tx]
    (repeat (mined 2) 300)
  = (Pending,
     Submit "transferOwnership" [VStr "0x3c44cddd"] (Some 1500)
       :: polls (VStr "0x5c504ed4") 300).
Proof.
  apply (proj2 (proj2 (proj2 (proj2
    (only_absent_receipts_count (sample_hre "kovan" 3) sample_props))))
    sample_iface "transferOwnership" [VStr "0x3c44cddd"]
    {| fname := "transferOwnership"; constant := false |}
    "wait" [Normal sample_tx] (repeat (mined 2) 300));
    reflexivity.
Defined.

(** ** Building the handle *)

Lemma define_forced def : forall b,
  define def {| writable := true; bound := b |} =
    {| writable := true; bound := b |}.
Proof. induction def as [|def IH]; intros b; [reflexivity|apply IH]. Qed.

Lemma new_Contract_writable def addr iface sp :
  all_writable
    (members (new_Contract
                {| Object_defineProperty := WritableDefineProperty def |}
                addr iface sp)) = true.
Proof.
  unfold all_writable. cbn [new_Contract members Object_defineProperty].
  induction iface as [|frag iface IH]; [reflexivity|].
  cbn [map forallb snd]. rewrite IH.
  cbn [define bound]. rewrite define_forced. reflexivity.
Qed.

(** Without the override the library's properties are read-only, and
    replacing a method throws. *)
Example install_needs_the_override :
  let c := new_Contract {| Object_defineProperty := NativeDefineProperty |}
             "0x5fbdb231" sample_iface None in
  install (functions c) c =
    Throw (TypeError "Cannot assign to read only property").
Proof. reflexivity. Qed.

Lemma assign_writable key m ms :
  all_writable ms = true ->
  exists ms',
    assign key m ms = Normal ms' /\
    all_writable ms' = true /\
    intercepted ms' key = (match m with Intercepting => true | _ => false end) /\
    forall k, k <> key -> member k ms' = member k ms.
Proof.
  unfold all_writable, intercepted, member.
  induction ms as [|[k p] ms IH]; intros A.
  - exists [(key, {| writable := true; bound := m |})].
    cbn [assign find fst]. rewrite String.eqb_refl.
    repeat split. intros k N. cbn [find fst].
    apply not_eq_sym, String.eqb_neq in N. rewrite N. reflexivity.
  - cbn [forallb snd] in A. apply andb_true_iff in A. destruct A as [Ap A].
    cbn [assign]. destruct (String.eqb k key) eqn:E.
    + rewrite Ap. apply String.eqb_eq in E. subst k.
      exists ((key, {| writable := true; bound := m |}) :: ms).
      cbn [forallb snd writable find fst]. rewrite String.eqb_refl.
      repeat split; [exact A|].
      intros k N. apply not_eq_sym, String.eqb_neq in N. rewrite N.
      reflexivity.
    + destruct (IH A) as (ms' & -> & A' & I & F).
      exists ((k, p) :: ms'). cbn [forallb snd find fst].
      rewrite Ap, A', E. repeat split; [exact I|].
      intros k' N. destruct (String.eqb k k'); [reflexivity|apply F; exact N].
Qed.

Lemma install_writable keys : forall c,
  all_writable (members c) = true ->
  exists c',
    install keys c = Normal c' /\
    address c' = address c /\
    interface c' = interface c /\
    signer c' = signer c /\
    provider c' = provider c /\
    functions c' = functions c /\
    forall k,
      In k keys \/ intercepted (members c) k = true ->
      intercepted (members c') k = true.
Proof.
  induction keys as [|key keys IH]; intros c A.
  - exists c. repeat split. intros k [[]|I]. exact I.
  - cbn [install].
    destruct (assign_writable key Intercepting (members c) A)
      as (ms & -> & A' & I & F).
    destruct (IH (with_members c ms) A')
      as (c' & -> & Ea & Ei & Es & Ep & Ef & K).
    exists c'. repeat split; try assumption.
    intros k H. apply K. cbn [with_members members].
    destruct (String.eqb k key) eqn:E.
    + apply String.eqb_eq in E. subst k. right. exact I.
    + apply String.eqb_neq in E.
      destruct H as [[H|H]|H].
      * congruence.
      * left. exact H.
      * right. unfold intercepted in *. rewrite (F k E). exact H.
Qed.

(** C8. For every input handle, [getAdvancedContract] returns a handle
    with the address, the interface and the credential (the signer, or the
    provider when there is no signer) of the input, and leaves the global
    [Object.defineProperty] as it found it.  Every function of the new
    handle is the intercepting one. *)
Theorem getAdvancedContract_preserves_handle opts g :
  exists c,
    getAdvancedContract opts g = (Normal c, g) /\
    address c = address (opts_contract opts) /\
    interface c = interface (opts_contract opts) /\
    credential c = credential (opts_contract opts) /\
    forall fnName hre args submissions answers,
      In fnName (functions c) ->
      invoke hre c fnName args submissions answers =
        advanced hre (interface c) fnName args submissions answers.
Proof.
  destruct g as [def]. unfold getAdvancedContract.
  cbn [Object_defineProperty].
  set (c0 := new_Contract _ _ _ _).
  destruct (install_writable (functions c0) c0
              (new_Contract_writable def _ _ _))
    as (c & -> & Ea & Ei & Es & Ep & Ef & K).
  exists c. split; [reflexivity|]. split; [exact Ea|]. split; [exact Ei|].
  split.
  - unfold credential. rewrite Es, Ep. subst c0.
    cbn [new_Contract signer provider]. unfold credential.
    destruct (signer (opts_contract opts)) as [s|]; [reflexivity|].
    destruct (provider (opts_contract opts)) as [p|]; reflexivity.
  - intros fnName hre args submissions answers H.
    rewrite Ef in H. specialize (K fnName (or_introl H)).
    unfold invoke. unfold intercepted in K.
    destruct (member fnName (members c)) as [[k [w [|]]]|];
      try discriminate K.
    reflexivity.
Qed.

(** * Further properties of the wrapper *)

(** ** Failures while polling *)

(** X1. A receipt query that throws is not taken for a missing receipt:
    the loop stops at that poll with the error of the query, and the
    wrapped call throws it, without resubmitting. *)
Theorem receipt_query_failure_is_thrown
    hre iface fnName args frag f props later pre e rest :
  getFunction iface fnName = Normal frag ->
  lookup "wait" props = VFun f ->
  still_polling hre (VObj props) 0 pre ->
  track hre (VObj props) 0 (pre ++ Throw e :: rest) =
    (Failed e, polls (lookup "hash" props) (S (List.length pre)), rest) /\
  advanced hre iface fnName args (Normal (VObj props) :: later)
    (pre ++ Throw e :: rest) =
    (Thrown e,
     Submit fnName args (override hre frag)
       :: polls (lookup "hash" props) (S (List.length pre))).
Proof.
  intros G W P.
  assert (T : track hre (VObj props) 0 (pre ++ Throw e :: rest) =
              (Failed e, polls (lookup "hash" props) (S (List.length pre)),
               rest)).
  { rewrite (track_app hre props pre 0 _ P).
    rewrite (polls_snoc _ (List.length pre)). reflexivity. }
  split; [exact T|].
  rewrite (advanced_transaction hre iface fnName args frag G props f
             later _ W), T.
  reflexivity.
Qed.

Lemma receipt_query_failure_is_thrown_witness :
  advanced (sample_hre "kovan" 2) sample_iface "transferOwnership"
    [VStr "0x3c44cddd"] [Normal sample_tx; Normal sample_tx]
    ([absent; mined 1] ++ Throw (Rejected "timeout") :: [mined 2])
  = (Thrown (Rejected "timeout"),
     Submit "transferOwnership" [VStr "0x3c44cddd"] (Some 1500)
       :: polls (VStr "0x5c504ed4") 3).
Proof.
  apply (receipt_query_failure_is_thrown (sample_hre "kovan" 2)
           sample_iface "transferOwnership" [VStr "0x3c44cddd"]
           {| fname := "transferOwnership"; constant := false |}
           "wait" sample_props [Normal sample_tx] [absent; mined 1]);
    reflexivity.
Defined.

(** X2. Without a deployment configuration no tracked transaction is ever
    confirmed: the first receipt the loop observes, whatever its
    confirmations, makes it throw a type error on reading the required
    count. *)
Theorem unconfigured_tracker_never_confirms hre props t :
  deployConfig hre = None ->
  (forall answers, fst (fst (track hre (VObj props) t answers)) <> Confirmed) /\
  (forall pre r rest,
     still_polling hre (VObj props) t pre ->
     track hre (VObj props) t (pre ++ Normal (Some r) :: rest) =
       (Failed (TypeError "Cannot read properties of undefined"),
        polls (lookup "hash" props) (S (List.length pre)), rest)).
Proof.
  intros C. split.
  - intros answers H.
    destruct (track hre (VObj props) t answers) as [[x evs] rest] eqn:T.
    cbn [fst] in H. subst x.
    destruct (track_confirmed _ _ _ _ _ _ T) as (_ & _ & cfg & _ & _ & C' & _).
    congruence.
  - intros pre r rest P.
    rewrite (track_app hre props pre t _ P), track_cons.
    cbn [loop_body]. rewrite C.
    rewrite (polls_snoc _ (List.length pre)). reflexivity.
Qed.

Lemma unconfigured_tracker_never_confirms_witness :
  track (unconfigured_hre "goerli") sample_tx 0
    ([absent; absent] ++ mined 12 :: [mined 13])
  = (Failed (TypeError "Cannot read properties of undefined"),
     polls (VStr "0x5c504ed4") 3, [mined 13]).
Proof.
  apply (proj2 (unconfigured_tracker_never_confirms
                  (unconfigured_hre "goerli") sample_props 0 eq_refl)
           [absent; absent] {| confirmations := 12 |} [mined 13]).
  reflexivity.
Defined.

(** ** Counting what a call does *)

Lemma advanced_view hre iface fnName args frag submissions answers :
  getFunction iface fnName = Normal frag ->
  (exists o,
     advanced hre iface fnName args submissions answers =
       (o, [Submit fnName args (override hre frag)])) \/
  (exists props f later,
     submissions = Normal (VObj props) :: later /\
     lookup "wait" props = VFun f).
Proof.
  intros G. destruct submissions as [|[v|e] later].
  - left. eexists. apply (advanced_pending _ _ _ _ _ G).
  - destruct v as [| |b|n|s|f|props];
      try (left; eexists;
           apply (advanced_not_object _ _ _ _ _ G); discriminate).
    + left. eexists. apply (advanced_null _ _ _ _ _ G).
    + destruct (lookup "wait" props) as [| |b|n|s|f|ps] eqn:W;
        try (left; eexists; apply (advanced_no_wait _ _ _ _ _ G);
             rewrite W; discriminate).
      right. exists props, f, later. split; [reflexivity|exact W].
  - left. eexists. apply (advanced_rejected _ _ _ _ _ G).
Qed.

Lemma tally_app (p : event -> bool) l1 l2 :
  List.length (filter p (l1 ++ l2)) =
    (List.length (filter p l1) + List.length (filter p l2))%nat.
Proof. rewrite filter_app, length_app. reflexivity. Qed.

Lemma logs_polls h n : logs (polls h n) = 0%nat.
Proof. unfold logs. induction n as [|n IH]; [reflexivity|exact IH]. Qed.

Lemma track_rounds hre props answers : forall t x evs rest,
  track hre (VObj props) t answers = (x, evs, rest) ->
  sleeps evs = queries evs /\
  (queries evs + List.length rest = List.length answers)%nat.
Proof.
  unfold sleeps, queries.
  induction answers as [|a answers IH]; intros t x evs rest H.
  - injection H as <- <- <-. split; reflexivity.
  - destruct a as [receipt|e].
    + rewrite track_cons in H.
      destruct (loop_body hre t receipt) as [t'| | |e].
      * destruct (track hre (VObj props) t' answers)
          as [[x' evs'] rest'] eqn:T.
        injection H as <- <- <-.
        destruct (IH _ _ _ _ T) as [S Q].
        simpl. split; lia.
      * injection H as <- <- <-. split; reflexivity.
      * injection H as <- <- <-. split; reflexivity.
      * injection H as <- <- <-. split; reflexivity.
    + injection H as <- <- <-. split; reflexivity.
Qed.

(** X3. In every call of the wrapper each receipt query comes after a
    one-second sleep of its own: the trace holds as many sleeps as
    queries, and no more queries than the node gave answers. *)
Theorem one_sleep_per_query hre iface fnName args submissions :
  forall answers,
    let evs := snd (advanced hre iface fnName args submissions answers) in
    sleeps evs = queries evs /\
    (queries evs <= List.length answers)%nat.
Proof.
  cbv zeta.
  destruct (getFunction iface fnName) as [frag|e] eqn:G.
  2:{ intros answers. destruct submissions; cbn [advanced]; rewrite G;
        (split; [reflexivity|apply Nat.le_0_l]). }
  induction submissions as [|s later IH]; intros answers.
  - rewrite (advanced_pending _ _ _ _ _ G).
    split; [reflexivity|apply Nat.le_0_l].
  - destruct (advanced_view hre iface fnName args frag (s :: later)
                answers G) as [[o ->]|(props & f & later' & E & W)].
    + split; [reflexivity|apply Nat.le_0_l].
    + injection E as -> <-.
      rewrite (advanced_transaction _ _ _ _ _ G props f later answers W).
      destruct (track hre (VObj props) 0 answers) as [[x evs] rest] eqn:T.
      destruct (track_rounds _ _ _ _ _ _ _ T) as [S Q].
      cbv zeta. unfold sleeps, queries in *.
      destruct x; cbn [snd];
        try (cbn [filter is_sleep is_query]; split; [exact S|lia]).
      specialize (IH rest).
      destruct (advanced hre iface fnName args later rest) as [o evs'].
      cbn [snd] in *. cbn [filter is_sleep is_query].
      rewrite !tally_app. split; lia.
Qed.

Lemma track_dropped_cost hre props answers evs rest :
  track hre (VObj props) 0 answers = (Dropped, evs, rest) ->
  logs evs = 1%nat /\ maxTimeout + 1 + absents rest <= absents answers.
Proof.
  intros T.
  destruct (track_dropped _ _ _ _ _ _ T) as (pre & -> & _ & _ & M & ->).
  split.
  - unfold logs. rewrite tally_app. fold (logs (polls (lookup "hash" props)
                                                  (S (List.length pre)))).
    rewrite logs_polls. reflexivity.
  - rewrite absents_app in *. cbn [absents] in *. lia.
Qed.

(** X4. Every warning is followed by one more submission, and each
    resubmission has cost more than [maxTimeout] polls without a receipt:
    a call that logged [k] warnings made [k + 1] submissions and saw at
    least [121 * k] absent receipts. *)
Theorem resubmissions_are_paid_for
    hre iface fnName args frag submissions :
  getFunction iface fnName = Normal frag ->
  forall answers,
    let evs := snd (advanced hre iface fnName args submissions answers) in
    submits evs = S (logs evs) /\
    (maxTimeout + 1) * Z.of_nat (logs evs) <= absents answers.
Proof.
  intros G. cbv zeta.
  induction submissions as [|s later IH]; intros answers.
  - rewrite (advanced_pending _ _ _ _ _ G). cbn.
    split; [reflexivity|apply absents_nonneg].
  - destruct (advanced_view hre iface fnName args frag (s :: later)
                answers G) as [[o ->]|(props & f & later' & E & W)].
    + cbn. split; [reflexivity|apply absents_nonneg].
    + injection E as -> <-.
      rewrite (advanced_transaction _ _ _ _ _ G props f later answers W).
      destruct (track hre (VObj props) 0 answers) as [[x evs] rest] eqn:T.
      destruct (track_quiet _ _ _ _ _ _ _ T) as [Q L].
      pose proof (absents_nonneg answers) as A.
      cbv zeta. unfold submits, logs in *.
      destruct x; cbn [snd];
        try (cbn [filter is_submit is_log List.length];
             rewrite Q, (L ltac:(discriminate));
             split; [reflexivity|cbn; lia]).
      destruct (track_dropped_cost _ _ _ _ _ T) as [L1 C].
      specialize (IH rest).
      destruct (advanced hre iface fnName args later rest) as [o evs'].
      cbn [snd] in *. cbn [filter is_submit is_log].
      unfold logs in L1. cbn [List.length].
      rewrite !tally_app, Q, L1. destruct IH as [IH1 IH2].
      split; [lia|]. unfold maxTimeout in *. lia.
Qed.

Lemma resubmissions_are_paid_for_witness :
  let evs :=
    snd (advanced (sample_hre "kovan" 1) sample_iface "transferOwnership"
           [] [Normal sample_tx; Normal sample_tx; Normal sample_tx]
           (repeat absent 250)) in
  submits evs = S (logs evs) /\
  (maxTimeout + 1) * Z.of_nat (logs evs) <= absents (repeat absent 250).
Proof.
  apply (resubmissions_are_paid_for (sample_hre "kovan" 1) sample_iface
           "transferOwnership" []
           {| fname := "transferOwnership"; constant := false |}).
  reflexivity.
Defined.

(** ** The counter across receipts *)

(** X5. Receipts short of the required confirmations do not reset the
    round counter: on kovan, once 120 absent receipts have been counted,
    however they were mixed with such receipts, the next absent receipt
    makes the loop log the warning and resubmit. *)
Theorem under_confirmed_receipts_do_not_reset_counter
    hre props pre rest :
  name (network hre) = "kovan" ->
  forallb (unconfirmed hre) pre = true ->
  absents pre = maxTimeout ->
  track hre (VObj props) 0 (pre ++ Normal None :: rest) =
    (Dropped,
     polls (lookup "hash" props) (S (List.length pre))
       ++ [ConsoleLog warning],
     rest).
Proof.
  intros K U A.
  assert (P : still_polling hre (VObj props) 0 pre).
  { apply track_unconfirmed; [exact U|right; lia]. }
  rewrite (track_app hre props pre 0 _ P), track_cons, loop_body_absent.
  rewrite K, A.
  change (0 + maxTimeout + 1 >? maxTimeout) with true.
  change (true && String.eqb "kovan" "kovan") with true. cbv iota.
  rewrite (polls_snoc _ (List.length pre)), <- app_assoc. reflexivity.
Qed.

Lemma under_confirmed_receipts_do_not_reset_counter_witness :
  track (sample_hre "kovan" 3) sample_tx 0
    ((repeat absent 100 ++ repeat (mined 2) 40 ++ repeat absent 20)
       ++ Normal None :: [mined 3])
  = (Dropped,
     polls (VStr "0x5c504ed4") 161 ++ [ConsoleLog warning], [mined 3]).
Proof.
  apply (under_confirmed_receipts_do_not_reset_counter
           (sample_hre "kovan" 3) sample_props
           (repeat absent 100 ++ repeat (mined 2) 40 ++ repeat absent 20)
           [mined 3]);
    reflexivity.
Defined.

(** ** Resubmitting again and again *)

(** X6. Nothing bounds the number of resubmissions: on kovan, when [k]
    transactions in a row each stay without a receipt for 121 polls, the
    wrapper submits, polls 121 times and warns [k] times over, and the
    call ends as the call made after them ends. *)
Theorem kovan_resubmits_without_bound
    hre iface fnName args frag f props later rest k :
  name (network hre) = "kovan" ->
  getFunction iface fnName = Normal frag ->
  lookup "wait" props = VFun f ->
  let stalled :=
    Submit fnName args (override hre frag)
      :: polls (lookup "hash" props) 121 ++ [ConsoleLog warning] in
  let again := advanced hre iface fnName args later rest in
  advanced hre iface fnName args
    (repeat (Normal (VObj props)) k ++ later)
    (List.concat (repeat (repeat absent 121) k) ++ rest) =
    (fst again, List.concat (repeat stalled k) ++ snd again).
Proof.
  intros K G W stalled again. subst again.
  set (round := repeat absent 121).
  induction k as [|k IH].
  - cbn [repeat List.concat app].
    destruct (advanced hre iface fnName args later rest). reflexivity.
  - cbn [repeat List.concat]. rewrite <- !app_assoc, <- app_comm_cons.
    rewrite (advanced_transaction hre iface fnName args frag G props f
               _ _ W).
    unfold round at 1.
    rewrite (track_absent_121 hre props _ K). cbv zeta. rewrite IH.
    cbn [fst snd]. subst stalled. rewrite <- !app_assoc. reflexivity.
Qed.

Lemma kovan_resubmits_without_bound_witness :
  fst (advanced (sample_hre "kovan" 1) sample_iface "transferOwnership"
         [] (repeat (Normal sample_tx) 3 ++ [Normal (VNum 7)])
         (List.concat (repeat (repeat absent 121) 3) ++ []))
  = Returned (VNum 7).
Proof.
  exact (f_equal fst
           (kovan_resubmits_without_bound (sample_hre "kovan" 1)
              sample_iface "transferOwnership" []
              {| fname := "transferOwnership"; constant := false |}
              "wait" sample_props [Normal (VNum 7)] [] 3
              eq_refl eq_refl eq_refl)).
Defined.

(** ** Results handed back untracked *)

(** X7. Apart from [null], every result without a [wait] function
    (a primitive, [undefined], a function, an object whose [wait] is not a
    function) is returned as it is, after the single submission and
    without a sleep or a receipt query. *)
Theorem non_transaction_result_is_returned
    hre iface fnName args frag v later answers :
  getFunction iface fnName = Normal frag ->
  v <> VNull ->
  lacks_wait v ->
  advanced hre iface fnName args (Normal v :: later) answers =
    (Returned v, [Submit fnName args (override hre frag)]).
Proof.
  intros G N L. apply (advanced_short_circuit _ _ _ _ _ G); assumption.
Qed.

Lemma non_transaction_result_is_returned_witness :
  advanced (sample_hre "kovan" 1) sample_iface "owner" []
    [Normal (VObj [("hash", VStr "0x5c504ed4"); ("wait", VStr "soon")])]
    [absent]
  = (Returned (VObj [("hash", VStr "0x5c504ed4"); ("wait", VStr "soon")]),
     [Submit "owner" [] (Some 0)]).
Proof.
  apply (non_transaction_result_is_returned (sample_hre "kovan" 1)
           sample_iface "owner" [] {| fname := "owner"; constant := true |});
    [reflexivity|discriminate|intros f; discriminate].
Defined.

(** ** What the new handle is made of *)

Lemma new_Contract_forced def addr iface sp :
  new_Contract {| Object_defineProperty := WritableDefineProperty def |}
    addr iface sp =
  new_Contract
    {| Object_defineProperty := WritableDefineProperty NativeDefineProperty |}
    addr iface sp.
Proof.
  unfold new_Contract. f_equal. apply map_ext. intros frag.
  cbn [Object_defineProperty define bound]. rewrite define_forced.
  reflexivity.
Qed.

Lemma getAdvancedContract_congruence opts1 opts2 g1 g2 :
  address (opts_contract opts1) = address (opts_contract opts2) ->
  interface (opts_contract opts1) = interface (opts_contract opts2) ->
  credential (opts_contract opts1) = credential (opts_contract opts2) ->
  fst (getAdvancedContract opts1 g1) = fst (getAdvancedContract opts2 g2).
Proof.
  intros Ea Ei Ec. unfold getAdvancedContract. cbn [fst].
  rewrite Ea, Ei, Ec.
  rewrite (new_Contract_forced (Object_defineProperty g1)).
  rewrite (new_Contract_forced (Object_defineProperty g2)).
  reflexivity.
Qed.

Lemma getAdvancedContract_fields opts g :
  exists c,
    getAdvancedContract opts g = (Normal c, g) /\
    address c = address (opts_contract opts) /\
    interface c = interface (opts_contract opts) /\
    credential c = credential (opts_contract opts) /\
    functions c = map fname (interface (opts_contract opts)) /\
    forall k, In k (functions c) -> intercepted (members c) k = true.
Proof.
  destruct g as [def]. unfold getAdvancedContract.
  cbn [Object_defineProperty].
  set (c0 := new_Contract _ _ _ _).
  destruct (install_writable (functions c0) c0
              (new_Contract_writable def _ _ _))
    as (c & -> & Ea & Ei & Es & Ep & Ef & K).
  exists c. split; [reflexivity|]. split; [exact Ea|]. split; [exact Ei|].
  split; [|split; [exact Ef|]].
  - unfold credential. rewrite Es, Ep. subst c0.
    cbn [new_Contract signer provider]. unfold credential.
    destruct (signer (opts_contract opts)) as [s|]; [reflexivity|].
    destruct (provider (opts_contract opts)) as [p|]; reflexivity.
  - intros k H. apply K. left. rewrite <- Ef. exact H.
Qed.

(** X8. Two inputs with the same address, the same interface and the same
    credential, wrapped for the same environment, give the same handle:
    the methods the input carries and the [Object.defineProperty] in force
    play no part. *)
Theorem advanced_handle_depends_on_address_interface_credential
    opts1 opts2 g1 g2 :
  opts_hre opts1 = opts_hre opts2 ->
  address (opts_contract opts1) = address (opts_contract opts2) ->
  interface (opts_contract opts1) = interface (opts_contract opts2) ->
  credential (opts_contract opts1) = credential (opts_contract opts2) ->
  fst (getAdvancedContract opts1 g1) = fst (getAdvancedContract opts2 g2).
Proof. intros _. apply getAdvancedContract_congruence. Qed.

Lemma advanced_handle_depends_on_address_interface_credential_witness :
  fst (getAdvancedContract
         {| opts_hre := sample_hre "goerli" 2;
            opts_contract :=
              {| address := "0x5fbdb231"; interface := sample_iface;
                 signer := None; provider := Some sample_provider;
                 functions := ["owner"];
                 members :=
                   [("owner", {| writable := false;
                                 bound := Intercepting |})] |} |}
         native)
  = fst (getAdvancedContract
           {| opts_hre := sample_hre "goerli" 2;
              opts_contract :=
                new_Contract native "0x5fbdb231" sample_iface
                  (Some (AProvider sample_provider)) |}
           {| Object_defineProperty :=
                WritableDefineProperty NativeDefineProperty |}).
Proof.
  apply advanced_handle_depends_on_address_interface_credential;
    reflexivity.
Defined.

(** X9. Wrapping a wrapped handle again, for the same environment, gives
    the same handle: the second call starts from the address, interface
    and credential once more, so nothing is wrapped twice. *)
Theorem getAdvancedContract_idempotent opts g c g' :
  fst (getAdvancedContract opts g) = Normal c ->
  getAdvancedContract
    {| opts_hre := opts_hre opts; opts_contract := c |} g' =
    (Normal c, g').
Proof.
  intros H.
  destruct (getAdvancedContract_fields opts g)
    as (c1 & E & Ea & Ei & Ec & _).
  rewrite E in H. cbn [fst] in H. injection H as ->.
  destruct (getAdvancedContract_fields
              {| opts_hre := opts_hre opts; opts_contract := c |} g')
    as (c2 & E2 & _).
  rewrite E2. f_equal.
  assert (F : fst (getAdvancedContract
                     {| opts_hre := opts_hre opts; opts_contract := c |}
                     g') =
              fst (getAdvancedContract opts g)).
  { apply getAdvancedContract_congruence; assumption. }
  rewrite E, E2 in F. exact F.
Qed.

Lemma getAdvancedContract_idempotent_witness :
  let c :=
    {| address := "0x5fbdb231";
       interface := sample_iface;
       signer := Some (getSigner sample_provider "0xf39fd6e5");
       provider := Some sample_provider;
       functions := ["owner"; "transferOwnership"];
       members :=
         [("owner", {| writable := true; bound := Intercepting |});
          ("transferOwnership",
           {| writable := true; bound := Intercepting |})] |} in
  getAdvancedContract
    {| opts_hre := sample_hre "goerli" 2; opts_contract := c |} native
  = (Normal c, native).
Proof.
  cbv zeta.
  apply (getAdvancedContract_idempotent
           {| opts_hre := sample_hre "goerli" 2;
              opts_contract :=
                new_Contract native "0x5fbdb231" sample_iface
                  (Some (ASigner
                           (getSigner sample_provider "0xf39fd6e5"))) |}
           native).
  reflexivity.
Defined.

(** * Properties of the deployment helpers *)

(** ** Sequencing *)

Lemma bind_fst_ext {A B : Type} (m m' : script A) (k k' : A -> script B) :
  fst m = fst m' ->
  (forall a, fst (k a) = fst (k' a)) ->
  fst (bind m k) = fst (bind m' k').
Proof.
  destruct m as [[a|e] acts], m' as [[a'|e'] acts']; cbn [fst bind];
    intros E K; try discriminate E.
  - injection E as <-. specialize (K a).
    destruct (k a), (k' a). exact K.
  - injection E as <-. reflexivity.
Qed.

Lemma bind_normal {A B : Type} (a : A) acts (k : A -> script B) :
  bind (Normal a, acts) k = (fst (k a), acts ++ snd (k a)).
Proof. cbn [bind]. destruct (k a). reflexivity. Qed.

Lemma bind_throw {A B : Type} e acts (k : A -> script B) :
  bind (Throw e, acts) k = (Throw e, acts).
Proof. reflexivity. Qed.

Lemma bind_in {A B : Type} (m : script A) (k : A -> script B) x :
  In x (snd (bind m k)) ->
  In x (snd m) \/ exists a, fst m = Normal a /\ In x (snd (k a)).
Proof.
  destruct m as [[a|e] acts].
  - rewrite bind_normal. cbn [fst snd]. intros H.
    apply in_app_or in H. destruct H as [H|H]; [left; exact H|].
    right. exists a. split; [reflexivity|exact H].
  - cbn [bind snd]. intros H. left. exact H.
Qed.

(** ** Verification *)

Lemma verifyOnEtherscan_settles sv addr args :
  fst (verifyOnEtherscan sv addr args) = Normal tt.
Proof.
  unfold verifyOnEtherscan, perform.
  destruct (run sv (VerifyTask addr args)) as [[]|e]; reflexivity.
Qed.

Lemma verifyOnSourcify_settles sv :
  fst (verifyOnSourcify sv) = Normal tt.
Proof.
  unfold verifyOnSourcify, perform.
  destruct (run sv SourcifyTask) as [[]|e]; reflexivity.
Qed.

Lemma verification_settles sv addr args :
  fst (bind (verifyOnEtherscan sv addr args)
         (fun _ => verifyOnSourcify sv)) = Normal tt.
Proof.
  pose proof (verifyOnEtherscan_settles sv addr args) as E.
  destruct (verifyOnEtherscan sv addr args) as [r acts].
  cbn [fst] in E. subst r. rewrite bind_normal. cbn [fst].
  apply verifyOnSourcify_settles.
Qed.

(** X10. Verification is best effort: whatever the Etherscan and the
    Sourcify tasks answer, and whether they throw or not, the outcome of
    [deployAndVerifyAndThen] is the same. *)
Theorem verification_never_decides_the_outcome
    hre sv g name args contract iface postDeployAction r :
  fst (deployAndVerifyAndThen hre (with_run sv r) g name args contract
         iface postDeployAction) =
  fst (deployAndVerifyAndThen hre sv g name args contract iface
         postDeployAction).
Proof.
  unfold deployAndVerifyAndThen.
  apply bind_fst_ext; [reflexivity|intros deployer].
  apply bind_fst_ext; [reflexivity|intros waitConfirmations].
  apply bind_fst_ext; [reflexivity|intros result].
  apply bind_fst_ext; [reflexivity|intros _].
  destruct (res_newlyDeployed result); [|reflexivity].
  apply bind_fst_ext; [reflexivity|intros hardhat].
  apply bind_fst_ext; [|intros _; reflexivity].
  cbn [network_config_live with_run].
  destruct (negb hardhat && _); [|reflexivity].
  rewrite !verification_settles. reflexivity.
Qed.

Lemma thenAction_runs_no_task sv hre g iface deployer result f t :
  ~ In (Run t) (snd (thenAction hre sv g iface deployer result f)).
Proof.
  unfold thenAction. intros H.
  apply bind_in in H. destruct H as [H|(abi & _ & H)].
  - destruct iface as [i|]; cbn in H; [|exact H].
    destruct H as [H|[]]. discriminate H.
  - apply bind_in in H. destruct H as [H|(c & _ & H)]; [exact H|].
    cbn in H. destruct H as [H|[]]. discriminate H.
Qed.

(** X11. The verification tasks are run only for a new deployment on a
    chain other than 31337 whose network is not marked [live: false]: a
    trace that holds a task comes from such a call. *)
Theorem verification_only_for_new_live_deployments
    hre sv g name args contract iface postDeployAction t :
  In (Run t)
     (snd (deployAndVerifyAndThen hre sv g name args contract iface
             postDeployAction)) ->
  exists options result id,
    deployments_deploy sv name options = Normal result /\
    res_newlyDeployed result = true /\
    getChainId sv = Normal id /\
    id <> 31337 /\
    network_config_live sv <> Some false.
Proof.
  unfold deployAndVerifyAndThen. intros H.
  apply bind_in in H. destruct H as [H|(deployer & _ & H)].
  { cbn in H. destruct H as [H|[]]. discriminate H. }
  apply bind_in in H. destruct H as [H|(wc & _ & H)]; [destruct H|].
  apply bind_in in H. destruct H as [H|(result & D & H)].
  { cbn in H. destruct H as [H|[]]. discriminate H. }
  apply bind_in in H. destruct H as [H|(_ & _ & H)].
  { cbn in H. destruct H as [H|[]]. discriminate H. }
  destruct (res_newlyDeployed result) eqn:N; [|destruct H].
  apply bind_in in H. destruct H as [H|(hardhat & C & H)].
  { unfold isHardhatNode in H. apply bind_in in H.
    destruct H as [H|(? & _ & [])].
    cbn in H. destruct H as [H|[]]. discriminate H. }
  unfold isHardhatNode, perform in C.
  destruct (getChainId sv) as [id|e] eqn:I; [|discriminate C].
  cbn in C. injection C as <-.
  apply bind_in in H. destruct H as [H|(_ & _ & H)].
  - destruct (id =? 31337) eqn:E; [destruct H|].
    apply Z.eqb_neq in E.
    assert (L : network_config_live sv <> Some false).
    { intros L. rewrite L in H. destruct H. }
    unfold perform in D. cbn [fst] in D.
    eexists _, result, id.
    split; [exact D|]. split; [exact N|]. split; [reflexivity|].
    split; [exact E|exact L].
  - destruct postDeployAction as [f|]; [|destruct H].
    destruct (thenAction_runs_no_task _ _ _ _ _ _ _ _ H).
Qed.

Lemma verification_only_for_new_live_deployments_witness :
  exists options result id,
    deployments_deploy (sample_services 5 true) "L1Token" options =
      Normal result /\
    res_newlyDeployed result = true /\
    getChainId (sample_services 5 true) = Normal id /\
    id <> 31337 /\
    network_config_live (sample_services 5 true) <> Some false.
Proof.
  apply (verification_only_for_new_live_deployments
           (sample_hre "goerli" 2) (sample_services 5 true) native
           "L1Token" [] None None None
           (VerifyTask "0x5fbdb231" [])).
  vm_compute. do 5 right. left. reflexivity.
Defined.

(** X12. A failed Etherscan verification does not keep Sourcify from being
    tried, and neither failure stops the call: both errors are printed
    and the call returns.  The trace of a new deployment on a live network
    where both tasks throw is the one given. *)
Theorem failed_verifications_are_printed_and_skipped
    hre sv g name args contract iface deployer cfg result id e1 e2 :
  getNamedAccounts sv = Normal deployer ->
  deployConfig hre = Some cfg ->
  let options :=
    {| opt_contract := contract; opt_from := deployer; opt_args := args;
       opt_log := true;
       opt_waitConfirmations := numDeployConfirmations cfg |} in
  deployments_deploy sv name options = Normal result ->
  waitForTransaction sv (res_transactionHash result) = Normal tt ->
  res_newlyDeployed result = true ->
  getChainId sv = Normal id ->
  id <> 31337 ->
  network_config_live sv <> Some false ->
  run sv (VerifyTask (res_address result) args) = Throw e1 ->
  run sv SourcifyTask = Throw e2 ->
  deployAndVerifyAndThen hre sv g name args contract iface None =
    (Normal tt,
     [GetNamedAccounts;
      Deploy name options;
      WaitForTransaction (res_transactionHash result);
      GetChainId;
      Print "Verifying on Etherscan...";
      Run (VerifyTask (res_address result) args);
      Print "Error when verifying bytecode on Etherscan:";
      PrintError e1;
      Print "Verifying on Sourcify...";
      Run SourcifyTask;
      Print "Error when verifying bytecode on Sourcify:";
      PrintError e2]).
Proof.
  intros A C options D W N I H L V S.
  unfold deployAndVerifyAndThen, isHardhatNode, verifyOnEtherscan,
    verifyOnSourcify, perform, lift.
  rewrite A, C. cbn [bind app]. fold options. rewrite D. cbn [bind app].
  rewrite W. cbn [bind app]. rewrite N, I. cbn [bind app ret].
  apply Z.eqb_neq in H. rewrite H, V, S.
  destruct (network_config_live sv) as [[|]|]; try reflexivity.
  contradiction L. reflexivity.
Qed.

Lemma failed_verifications_are_printed_and_skipped_witness :
  fst (deployAndVerifyAndThen (sample_hre "goerli" 2)
         (sample_services 5 true) native "L1Token" [] None None None)
  = Normal tt.
Proof.
  exact (f_equal fst
    (failed_verifications_are_printed_and_skipped
       (sample_hre "goerli" 2) (sample_services 5 true) native "L1Token"
       [] None None "0xf39fd6e5"
       {| gasPrice := Some 1500; numDeployConfirmations := 2 |}
       (sample_result true) 5
       (Rejected "verification failed") (Rejected "verification failed")
       eq_refl eq_refl eq_refl eq_refl eq_refl eq_refl
       ltac:(discriminate) ltac:(discriminate) eq_refl eq_refl)).
Defined.

(** X13. When the deployment already existed (not newly deployed), the
    call stops after waiting for its transaction: no chain lookup, no
    verification, and [postDeployAction], even when given, is not run. *)
Theorem existing_deployment_is_left_alone
    hre sv g name args contract iface postDeployAction deployer cfg result :
  getNamedAccounts sv = Normal deployer ->
  deployConfig hre = Some cfg ->
  let options :=
    {| opt_contract := contract; opt_from := deployer; opt_args := args;
       opt_log := true;
       opt_waitConfirmations := numDeployConfirmations cfg |} in
  deployments_deploy sv name options = Normal result ->
  waitForTransaction sv (res_transactionHash result) = Normal tt ->
  res_newlyDeployed result = false ->
  deployAndVerifyAndThen hre sv g name args contract iface
    postDeployAction =
    (Normal tt,
     [GetNamedAccounts;
      Deploy name options;
      WaitForTransaction (res_transactionHash result)]).
Proof.
  intros A C options D W N.
  unfold deployAndVerifyAndThen, perform, lift.
  rewrite A, C. cbn [bind app]. fold options. rewrite D. cbn [bind app].
  rewrite W. cbn [bind app]. rewrite N. reflexivity.
Qed.

Lemma existing_deployment_is_left_alone_witness :
  deployAndVerifyAndThen (sample_hre "goerli" 2)
    (sample_services 5 false) native "L1Token" [] None (Some "IERC20")
    (Some (fun _ => Throw (Rejected "never called")))
  = (Normal tt,
     [GetNamedAccounts;
      Deploy "L1Token"
        {| opt_contract := None; opt_from := "0xf39fd6e5"; opt_args := [];
           opt_log := true; opt_waitConfirmations := 2 |};
      WaitForTransaction (VStr "0x5c504ed4")]).
Proof.
  apply (existing_deployment_is_left_alone (sample_hre "goerli" 2)
           (sample_services 5 false) native "L1Token" [] None
           (Some "IERC20") _ "0xf39fd6e5"
           {| gasPrice := Some 1500; numDeployConfirmations := 2 |}
           (sample_result false));
    reflexivity.
Defined.

(** ** The handle given to the action *)

Lemma invoke_intercepted hre c fnName args submissions answers :
  intercepted (members c) fnName = true ->
  invoke hre c fnName args submissions answers =
    advanced hre (interface c) fnName args submissions answers.
Proof.
  unfold invoke, intercepted. intros K.
  destruct (member fnName (members c)) as [[k [w [|]]]|];
    try discriminate K.
  reflexivity.
Qed.

Lemma advancedContract_fields hre g addr iface s :
  exists c,
    advancedContract hre g (new_Contract g addr iface (Some (ASigner s))) =
      Normal c /\
    address c = addr /\
    interface c = iface /\
    signer c = Some s /\
    forall fnName args submissions answers,
      In fnName (map fname iface) ->
      invoke hre c fnName args submissions answers =
        advanced hre iface fnName args submissions answers.
Proof.
  unfold advancedContract.
  destruct (getAdvancedContract_fields
              {| opts_hre := hre;
                 opts_contract :=
                   new_Contract g addr iface (Some (ASigner s)) |} g)
    as (c & -> & Ea & Ei & Ec & Ef & K).
  cbn [opts_contract new_Contract address interface] in *.
  exists c. split; [reflexivity|]. split; [exact Ea|]. split; [exact Ei|].
  split.
  - unfold credential in Ec.
    cbn [opts_contract new_Contract signer provider] in Ec.
    destruct (signer c) as [s'|]; [congruence|].
    destruct (provider c); discriminate Ec.
  - intros fnName args submissions answers H.
    rewrite <- Ei. apply invoke_intercepted, K. rewrite Ef. exact H.
Qed.

(** X14. For a new deployment [postDeployAction] is called, after the
    verification whatever it gave, with the advanced handle of the
    deployed contract: its address is the deployed address, its interface
    the one of the named factory when [iface] is given and the deployed
    abi otherwise, its signer the deployer, and each of its functions is
    the intercepting one.  What the action answers is the outcome of the
    call. *)
Theorem postDeployAction_gets_the_advanced_handle
    hre sv g name args contract iface f deployer cfg result id abi :
  getNamedAccounts sv = Normal deployer ->
  deployConfig hre = Some cfg ->
  deployments_deploy sv name
    {| opt_contract := contract; opt_from := deployer; opt_args := args;
       opt_log := true;
       opt_waitConfirmations := numDeployConfirmations cfg |} =
    Normal result ->
  waitForTransaction sv (res_transactionHash result) = Normal tt ->
  res_newlyDeployed result = true ->
  getChainId sv = Normal id ->
  match iface with
  | Some i => getContractFactory sv i = Normal abi
  | None => res_abi result = abi
  end ->
  exists c acts,
    deployAndVerifyAndThen hre sv g name args contract iface (Some f) =
      (f c, acts ++ [PostDeployAction c]) /\
    address c = res_address result /\
    interface c = abi /\
    signer c = Some (getSigner (ethers_provider sv) deployer) /\
    forall fnName args' submissions answers,
      In fnName (map fname abi) ->
      invoke hre c fnName args' submissions answers =
        advanced hre abi fnName args' submissions answers.
Proof.
  intros A C D W N I F.
  destruct (advancedContract_fields hre g (res_address result) abi
              (getSigner (ethers_provider sv) deployer))
    as (c & E & Ea & Ei & Es & K).
  exists c.
  unfold deployAndVerifyAndThen, isHardhatNode, perform, lift.
  rewrite A, C. cbn [bind app]. rewrite D. cbn [bind app].
  rewrite W. cbn [bind app]. rewrite N, I. cbn [bind app ret].
  match goal with
  | |- context [bind ?v _] =>
      assert (V : fst v = Normal tt)
        by (destruct (negb _ && _);
            [apply verification_settles|reflexivity]);
      destruct v as [r vacts]
  end.
  cbn [fst] in V. subst r. cbn [bind].
  unfold thenAction, perform, lift.
  destruct iface as [i|].
  - rewrite F. cbn [bind app]. rewrite E. cbn [bind app].
    eexists. split; [|repeat split; assumption].
    f_equal.
    change [GetContractFactory i; PostDeployAction c]
      with ([GetContractFactory i] ++ [PostDeployAction c]).
    rewrite app_assoc, !app_comm_cons. reflexivity.
  - cbn [ret bind app]. rewrite F, E. cbn [bind app].
    eexists. split; [|repeat split; assumption].
    f_equal. rewrite !app_comm_cons. reflexivity.
Qed.

Lemma postDeployAction_gets_the_advanced_handle_witness :
  exists c acts,
    deployAndVerifyAndThen (sample_hre "hardhat" 1)
      (sample_services 31337 true) native "L1Token" [] None
      (Some "IERC20") (Some (fun _ => Normal tt)) =
      (Normal tt, acts ++ [PostDeployAction c]) /\
    address c = "0x5fbdb231" /\
    interface c = [ {| fname := "balanceOf"; constant := true |} ] /\
    signer c = Some (getSigner sample_provider "0xf39fd6e5") /\
    forall fnName args' submissions answers,
      In fnName ["balanceOf"] ->
      invoke (sample_hre "hardhat" 1) c fnName args' submissions answers =
        advanced (sample_hre "hardhat" 1)
          [ {| fname := "balanceOf"; constant := true |} ]
          fnName args' submissions answers.
Proof.
  apply (postDeployAction_gets_the_advanced_handle
           (sample_hre "hardhat" 1) (sample_services 31337 true) native
           "L1Token" [] None (Some "IERC20") (fun _ => Normal tt)
           "0xf39fd6e5"
           {| gasPrice := Some 1500; numDeployConfirmations := 1 |}
           (sample_result true) 31337
           [ {| fname := "balanceOf"; constant := true |} ]);
    reflexivity.
Defined.

(** ** Failures *)

(** X15. A failure of the deployment, of the wait for its transaction or
    of the chain lookup is the outcome of the call, and nothing comes after
    it: no verification and no [postDeployAction]. *)
Theorem deployment_failures_stop_the_call
    hre sv g name args contract iface postDeployAction deployer cfg e :
  getNamedAccounts sv = Normal deployer ->
  deployConfig hre = Some cfg ->
  let options :=
    {| opt_contract := contract; opt_from := deployer; opt_args := args;
       opt_log := true;
       opt_waitConfirmations := numDeployConfirmations cfg |} in
  let call :=
    deployAndVerifyAndThen hre sv g name args contract iface
      postDeployAction in
  (deployments_deploy sv name options = Throw e ->
   call = (Throw e, [GetNamedAccounts; Deploy name options])) /\
  (forall result,
     deployments_deploy sv name options = Normal result ->
     waitForTransaction sv (res_transactionHash result) = Throw e ->
     call =
       (Throw e,
        [GetNamedAccounts; Deploy name options;
         WaitForTransaction (res_transactionHash result)])) /\
  (forall result,
     deployments_deploy sv name options = Normal result ->
     waitForTransaction sv (res_transactionHash result) = Normal tt ->
     res_newlyDeployed result = true ->
     getChainId sv = Throw e ->
     call =
       (Throw e,
        [GetNamedAccounts; Deploy name options;
         WaitForTransaction (res_transactionHash result); GetChainId])).
Proof.
  intros A C options call. subst call.
  unfold deployAndVerifyAndThen, isHardhatNode, perform, lift.
  rewrite A, C. cbn [bind app]. fold options.
  split; [|split].
  - intros D. rewrite D. reflexivity.
  - intros result D W. rewrite D. cbn [bind app]. rewrite W. reflexivity.
  - intros result D W N I. rewrite D. cbn [bind app]. rewrite W.
    cbn [bind app]. rewrite N, I. reflexivity.
Qed.

Lemma deployment_failures_stop_the_call_witness :
  deployAndVerifyAndThen (sample_hre "goerli" 2) rejecting_services native
    "L1Token" [] None None (Some (fun _ => Normal tt))
  = (Throw (Rejected "nonce too low"),
     [GetNamedAccounts;
      Deploy "L1Token"
        {| opt_contract := None; opt_from := "0xf39fd6e5"; opt_args := [];
           opt_log := true; opt_waitConfirmations := 2 |}]).
Proof.
  apply (proj1 (deployment_failures_stop_the_call (sample_hre "goerli" 2)
                  rejecting_services native "L1Token" [] None None
                  (Some (fun _ => Normal tt)) "0xf39fd6e5"
                  {| gasPrice := Some 1500; numDeployConfirmations := 2 |}
                  (Rejected "nonce too low") eq_refl eq_refl)).
  reflexivity.
Defined.



(** * Properties of [getContractFromArtifact] *)

Lemma bind_normal_inv {A B : Type} (m : script A) (k : A -> script B) b acts :
  bind m k = (Normal b, acts) ->
  exists a acts1 acts2,
    m = (Normal a, acts1) /\ k a = (Normal b, acts2) /\
    acts = acts1 ++ acts2.
Proof.
  destruct m as [[a|e] acts1]; [|discriminate].
  rewrite bind_normal. intros H. injection H as H1 H2.
  exists a, acts1, (snd (k a)). split; [reflexivity|].
  split; [|symmetry; exact H2].
  destruct (k a) as [r acts2]. cbn [fst snd] in *. subst r. reflexivity.
Qed.

Lemma advancedContract_credential hre g addr iface sp :
  exists c,
    advancedContract hre g (new_Contract g addr iface (Some sp)) =
      Normal c /\
    address c = addr /\
    interface c = iface /\
    credential c = Some sp /\
    forall fnName args submissions answers,
      In fnName (map fname iface) ->
      invoke hre c fnName args submissions answers =
        advanced hre iface fnName args submissions answers.
Proof.
  unfold advancedContract.
  destruct (getAdvancedContract_fields
              {| opts_hre := hre;
                 opts_contract := new_Contract g addr iface (Some sp) |} g)
    as (c & -> & Ea & Ei & Ec & Ef & K).
  cbn [opts_contract new_Contract address interface] in *.
  exists c. split; [reflexivity|]. split; [exact Ea|]. split; [exact Ei|].
  split.
  - rewrite Ec. unfold credential.
    cbn [opts_contract new_Contract signer provider].
    destruct sp as [s|p]; reflexivity.
  - intros fnName args submissions answers H.
    rewrite <- Ei. apply invoke_intercepted, K. rewrite Ef. exact H.
Qed.

(** The steps of a call that returns a handle. *)
Lemma getContractFromArtifact_returns hre sv g name options c acts :
  getContractFromArtifact hre sv g name options = (Normal c, acts) ->
  exists artifact receipt iface factory_acts sp,
    deployments_get sv name = Normal artifact /\
    dep_receipt artifact = Some receipt /\
    match o_iface options with
    | Some i =>
        if truthy_string i
        then getContractFactory sv i = Normal iface /\
             factory_acts = [GetContractFactory i]
        else iface = dep_abi artifact /\ factory_acts = []
    | None => iface = dep_abi artifact /\ factory_acts = []
    end /\
    sp = match o_signerOrProvider options with
         | Some (ByAddress addr) =>
             if truthy_string addr
             then ASigner (getSigner (ethers_provider sv) addr)
             else AProvider (ethers_provider sv)
         | Some (AsGiven sp) => sp
         | None => AProvider (ethers_provider sv)
         end /\
    advancedContract hre g
      (new_Contract g (dep_address artifact) iface (Some sp)) = Normal c /\
    acts = DeploymentsGet name
             :: WaitForTransaction (transactionHash receipt)
             :: factory_acts.
Proof.
  unfold getContractFromArtifact. intros H.
  apply bind_normal_inv in H.
  destruct H as (artifact & a1 & a2 & E1 & H & ->).
  unfold perform in E1. injection E1 as E1 <-.
  apply bind_normal_inv in H. destruct H as (hash & a3 & a4 & E2 & H & ->).
  unfold lift in E2. injection E2 as E2 <-.
  destruct (dep_receipt artifact) as [receipt|] eqn:R; [|discriminate E2].
  injection E2 as <-.
  apply bind_normal_inv in H. destruct H as ([] & a5 & a6 & E3 & H & ->).
  unfold perform in E3. injection E3 as E3 <-.
  apply bind_normal_inv in H. destruct H as (iface & a7 & a8 & E4 & H & ->).
  unfold lift in H. injection H as H <-.
  eexists artifact, receipt, iface, a7, _.
  split; [exact E1|]. split; [exact R|]. split.
  - destruct (o_iface options) as [i|].
    + destruct (truthy_string i).
      * unfold perform in E4. injection E4 as E4 <-. split; [exact E4|reflexivity].
      * unfold ret in E4. injection E4 as <- <-. split; reflexivity.
    + unfold ret in E4. injection E4 as <- <-. split; reflexivity.
  - split; [reflexivity|]. split; [exact H|].
    cbn [app]. rewrite app_nil_r. reflexivity.
Qed.

(** X17. A handle loaded from an artifact has the address of the
    artifact and always has a credential: the signer or provider given,
    the signer of the account when an address is given, and the provider
    of [hre] when nothing is given.  All its functions are the
    intercepting ones. *)
Theorem artifact_handle_has_address_and_credential
    hre sv g name options c acts :
  getContractFromArtifact hre sv g name options = (Normal c, acts) ->
  exists artifact,
    deployments_get sv name = Normal artifact /\
    address c = dep_address artifact /\
    credential c <> None /\
    (o_signerOrProvider options = None ->
     credential c = Some (AProvider (ethers_provider sv))) /\
    (forall sp, o_signerOrProvider options = Some (AsGiven sp) ->
                credential c = Some sp) /\
    (forall addr,
       o_signerOrProvider options = Some (ByAddress addr) ->
       addr <> "" ->
       credential c =
         Some (ASigner (getSigner (ethers_provider sv) addr))) /\
    forall fnName args submissions answers,
      In fnName (map fname (interface c)) ->
      invoke hre c fnName args submissions answers =
        advanced hre (interface c) fnName args submissions answers.
Proof.
  intros H.
  destruct (getContractFromArtifact_returns _ _ _ _ _ _ _ H)
    as (artifact & receipt & iface & fa & sp & D & _ & _ & S & A & _).
  destruct (advancedContract_credential hre g (dep_address artifact) iface
              sp) as (c' & A' & Ea & Ei & Ec & K).
  rewrite A in A'. injection A' as <-.
  exists artifact. split; [exact D|]. split; [exact Ea|].
  split; [rewrite Ec; discriminate|].
  split; [|split; [|split]].
  - intros O. rewrite O in S. congruence.
  - intros sp' O. rewrite O in S. congruence.
  - intros addr O N. rewrite O in S. unfold truthy_string in S.
    apply String.eqb_neq in N. rewrite N in S. cbn [negb] in S. congruence.
  - intros fnName args submissions answers I. rewrite Ei in *.
    apply K. exact I.
Qed.

Lemma artifact_handle_has_address_and_credential_witness :
  exists artifact,
    deployments_get (sample_services 5 true) "L1Token" = Normal artifact /\
    address sample_advanced = dep_address artifact /\
    credential sample_advanced <> None /\
    (@None SignerOrProviderOption = None ->
     credential sample_advanced = Some (AProvider sample_provider)) /\
    (forall sp, @None SignerOrProviderOption = Some (AsGiven sp) ->
                credential sample_advanced = Some sp) /\
    (forall addr,
       @None SignerOrProviderOption = Some (ByAddress addr) ->
       addr <> "" ->
       credential sample_advanced =
         Some (ASigner (getSigner sample_provider addr))) /\
    forall fnName args submissions answers,
      In fnName (map fname (interface sample_advanced)) ->
      invoke (sample_hre "goerli" 2) sample_advanced fnName args
        submissions answers =
      advanced (sample_hre "goerli" 2) (interface sample_advanced) fnName
        args submissions answers.
Proof.
  apply (artifact_handle_has_address_and_credential
           (sample_hre "goerli" 2) (sample_services 5 true) native
           "L1Token" {| o_iface := None; o_signerOrProvider := None |}
           sample_advanced
           [DeploymentsGet "L1Token";
            WaitForTransaction (VStr "0x5c504ed4")]).
  reflexivity.
Defined.

(** X18. An empty string counts as no option at all: with [iface] empty
    the factory is not asked and the abi of the artifact is the
    interface, and with an empty account address the provider of [hre] is
    the credential, exactly as when the option is left out. *)
Theorem empty_options_are_ignored hre sv g name :
  (forall sp,
     getContractFromArtifact hre sv g name
       {| o_iface := Some ""; o_signerOrProvider := sp |} =
     getContractFromArtifact hre sv g name
       {| o_iface := None; o_signerOrProvider := sp |}) /\
  (forall i,
     getContractFromArtifact hre sv g name
       {| o_iface := i; o_signerOrProvider := Some (ByAddress "") |} =
     getContractFromArtifact hre sv g name
       {| o_iface := i; o_signerOrProvider := None |}).
Proof. split; intros; reflexivity. Qed.

(** X19. When the named deployment is not recorded, loading the contract
    and reading its address both throw the error of
    [hre.deployments.get], having asked for nothing else. *)
Theorem unknown_deployment_is_an_error hre sv g name options e :
  deployments_get sv name = Throw e ->
  getContractFromArtifact hre sv g name options =
    (Throw e, [DeploymentsGet name]) /\
  getDeploymentAddress sv name = (Throw e, [DeploymentsGet name]).
Proof.
  intros D. unfold getContractFromArtifact, getDeploymentAddress, perform.
  rewrite D. split; reflexivity.
Qed.

Lemma unknown_deployment_is_an_error_witness :
  getDeploymentAddress (sample_services 5 true) "L2Token" =
    (Throw (Rejected "No deployment found"), [DeploymentsGet "L2Token"]).
Proof.
  apply (unknown_deployment_is_an_error (sample_hre "goerli" 2)
           (sample_services 5 true) native "L2Token"
           {| o_iface := None; o_signerOrProvider := None |}).
  reflexivity.
Defined.

(** X20. A deployment recorded without a receipt cannot be loaded as a
    contract: the call throws a type error before it waits for any
    transaction, although the address of the deployment can be read. *)
Theorem deployment_without_receipt_cannot_be_loaded
    hre sv g name options artifact :
  deployments_get sv name = Normal artifact ->
  dep_receipt artifact = None ->
  getContractFromArtifact hre sv g name options =
    (Throw (TypeError "Cannot read properties of undefined"),
     [DeploymentsGet name]) /\
  getDeploymentAddress sv name =
    (Normal (dep_address artifact), [DeploymentsGet name]).
Proof.
  intros D R.
  unfold getContractFromArtifact, getDeploymentAddress, perform, lift.
  rewrite D. cbn [bind]. rewrite R. split; reflexivity.
Qed.

(** X21. The handle [getContractFromArtifact] returns sits at the address
    [getDeploymentAddress] gives for the same name. *)
Theorem artifact_handle_is_at_the_deployment_address
    hre sv g name options c acts :
  getContractFromArtifact hre sv g name options = (Normal c, acts) ->
  getDeploymentAddress sv name = (Normal (address c), [DeploymentsGet name]).
Proof.
  intros H.
  destruct (getContractFromArtifact_returns _ _ _ _ _ _ _ H)
    as (artifact & receipt & iface & fa & sp & D & _ & _ & _ & A & _).
  destruct (advancedContract_credential hre g (dep_address artifact) iface
              sp) as (c' & A' & Ea & _).
  rewrite A in A'. injection A' as <-.
  unfold getDeploymentAddress, perform. rewrite D, Ea. reflexivity.
Qed.

Lemma deployment_without_receipt_cannot_be_loaded_witness :
  getContractFromArtifact (sample_hre "goerli" 2) (sample_services 5 true)
    native "Imported" {| o_iface := None; o_signerOrProvider := None |}
  = (Throw (TypeError "Cannot read properties of undefined"),
     [DeploymentsGet "Imported"]).
Proof.
  apply (deployment_without_receipt_cannot_be_loaded
           (sample_hre "goerli" 2) (sample_services 5 true) native
           "Imported" {| o_iface := None; o_signerOrProvider := None |}
           imported_deployment);
    reflexivity.
Defined.

Lemma artifact_handle_is_at_the_deployment_address_witness :
  getDeploymentAddress (sample_services 5 true) "L1Token" =
    (Normal "0x5fbdb231", [DeploymentsGet "L1Token"]).
Proof.
  apply (artifact_handle_is_at_the_deployment_address
           (sample_hre "goerli" 2) (sample_services 5 true) native
           "L1Token" {| o_iface := None; o_signerOrProvider := None |}
           sample_advanced
           [DeploymentsGet "L1Token";
            WaitForTransaction (VStr "0x5c504ed4")]).
  reflexivity.
Defined.

(** * Properties of [assertContractVariable] *)


(** X23. When the variable holds a string, a number or a boolean, the
    check passes exactly when [expected] is strictly equal to it, fails
    with the assertion error otherwise, and never calls [eq]. *)
Theorem primitive_variable_is_compared_strictly
    sv g contract variable expected actual :
  let temp :=
    new_Contract g (address contract) (interface contract)
      (option_map AProvider (provider contract)) in
  callStatic sv temp variable AddressZero = Normal actual ->
  is_primitive actual = true ->
  assertContractVariable sv g contract variable expected =
    (if strict_equal actual expected then Passed
     else AssertionError variable actual expected,
     [CallStatic temp variable AddressZero]).
Proof.
  intros temp C P. unfold assertContractVariable, perform. fold temp.
  rewrite C, bind_normal. unfold agrees.
  destruct (strict_equal actual expected).
  - reflexivity.
  - destruct actual; try discriminate P; reflexivity.
Qed.

Lemma primitive_variable_is_compared_strictly_witness :
  fst (assertContractVariable (sample_services 5 true) native
         sample_advanced "owner" (VStr "0x70997970"))
  = AssertionError "owner" (VStr "0xf39fd6e5") (VStr "0x70997970").
Proof.
  exact (f_equal fst
    (primitive_variable_is_compared_strictly (sample_services 5 true)
       native sample_advanced "owner" (VStr "0x70997970")
       (VStr "0xf39fd6e5") eq_refl eq_refl)).
Defined.




